(** * pystate: a finite state machine driven by generator co-routines

    A shallow embedding of [pystate.py] (classes [State] and
    [FiniteStateMachine], the decorator [state_handler]) and of the handlers
    of [turnstile_test.py] and [callable_test.py], with the properties of the
    machine proved over it.

    Python objects live in a store and are named by references, so that two
    names for one [State] object (the registry entry, [current_state], an
    entry of another state's [from_states]) are one object, as in Python. *)

From stdpp Require Import base tactics option list strings gmap pretty.
From Stdlib Require Import ZArith Lia FunctionalExtensionality.

Local Open Scope string_scope.

(** ** Values and exceptions *)

(** A reference: the identity of a Python object, an index in the store. *)
Abbreviation ref := nat (only parsing).

Inductive PyVal : Type :=
| VNone
| VBool (b : bool)
| VInt (z : Z)
| VStr (s : string)
| VState (r : ref)    (* a [State] object *)
| VFsm (m : ref)      (* a [FiniteStateMachine] object *)
| VInst (i : ref).    (* an instance of a user class *)

(** [isinstance(v, State)] *)
Definition isinstance_State (v : PyVal) : bool :=
  match v with VState _ => true | _ => false end.

(** [a == b]: [State], [FiniteStateMachine] and the user classes define no
    [__eq__], so objects compare by identity; [bool] is a subclass of [int]. *)
Definition py_eqb (a b : PyVal) : bool :=
  match a, b with
  | VNone, VNone => true
  | VBool x, VBool y => bool_decide (x = y)
  | VInt x, VInt y => bool_decide (x = y)
  | VBool x, VInt y | VInt y, VBool x => bool_decide ((if x then 1%Z else 0%Z) = y)
  | VStr x, VStr y => bool_decide (x = y)
  | VState x, VState y => bool_decide (x = y)
  | VFsm x, VFsm y => bool_decide (x = y)
  | VInst x, VInst y => bool_decide (x = y)
  | _, _ => false
  end.

(** [x in t] for a tuple [t] *)
Definition py_in (x : PyVal) (t : list PyVal) : bool := existsb (py_eqb x) t.

(** ['%s' % v]; the text of an object without [__str__] holds its address
    and is given here by its reference. *)
Definition py_str (v : PyVal) : string :=
  match v with
  | VNone => "None"
  | VBool true => "True"
  | VBool false => "False"
  | VInt z => pretty z
  | VStr s => s
  | VState r => "<State " +:+ pretty r +:+ ">"
  | VFsm m => "<Fsm " +:+ pretty m +:+ ">"
  | VInst i => "<object " +:+ pretty i +:+ ">"
  end.

Inductive ExnClass : Type :=
| ValueError
| TypeError
| KeyError
| RuntimeError
| AttributeError
| StopIteration
| InvalidStateTransition   (* class InvalidStateTransition(Exception) *)
| FsmExit                  (* class FsmExit(Exception) *)
| BadReference.            (* a reference to no object: no Python run reaches it *)

(** An exception: its class and its message. *)
Inductive Exn : Type := Exc (c : ExnClass) (msg : string).

Definition exn_class (e : Exn) : ExnClass := let 'Exc c _ := e in c.

Global Instance ExnClass_eq_dec : EqDecision ExnClass.
Proof. solve_decision. Defined.
Global Instance Exn_eq_dec : EqDecision Exn.
Proof. solve_decision. Defined.
Global Instance PyVal_eq_dec : EqDecision PyVal.
Proof. solve_decision. Defined.

(** ** Handler code

    A handler is user code. What it may do to the machine and to the store is
    given by the operations of [Prog]: call [transition_to] on a machine it
    holds, read an attribute, set an attribute of an instance of its own
    class, print a line, raise. Every call hands its outcome to the
    continuation, so that a handler may catch what the call raises or let it
    pass ([Raise] it again). A [Prog] is a finite tree: a piece of handler
    code between two suspension points that runs to its end. *)

Inductive Prog (A : Type) : Type :=
| Return (a : A)
| Raise (e : Exn)
| CallTransitionTo (recv to_state : PyVal) (k : option Exn -> Prog A)
| GetAttr (recv : PyVal) (attr : string) (k : Exn + PyVal -> Prog A)
| SetAttr (i : ref) (attr : string) (v : PyVal) (k : Prog A)
| Print (line : string) (k : Prog A).

Arguments Return {A} a.
Arguments Raise {A} e.
Arguments CallTransitionTo {A} recv to_state k.
Arguments GetAttr {A} recv attr k.
Arguments SetAttr {A} i attr v k.
Arguments Print {A} line k.

Fixpoint prog_bind {A B : Type} (p : Prog A) (f : A -> Prog B) : Prog B :=
  match p with
  | Return a => f a
  | Raise e => Raise e
  | CallTransitionTo recv t k => CallTransitionTo recv t (fun r => prog_bind (k r) f)
  | GetAttr recv attr k => GetAttr recv attr (fun r => prog_bind (k r) f)
  | SetAttr i attr v k => SetAttr i attr v (prog_bind k f)
  | Print line k => Print line (prog_bind k f)
  end.

(** [recv.transition_to(to_state)] with nothing caught around it *)
Definition transition_to_then {A : Type} (recv to_state : PyVal) (k : Prog A) : Prog A :=
  CallTransitionTo recv to_state
    (fun r => match r with Some e => Raise e | None => k end).

(** [recv.attr] with nothing caught around it *)
Definition getattr_then {A : Type} (recv : PyVal) (attr : string)
    (k : PyVal -> Prog A) : Prog A :=
  GetAttr recv attr (fun r => match r with inl e => Raise e | inr v => k v end).

(** The local variables of a suspended generator. *)
Definition Frame : Type := gmap string PyVal.

(** The body of a generator: the code from its entry to the first [yield],
    and the code from a [yield] that receives an event to the next [yield].
    Both end in [Some] frame at a [yield], or in [None] when the function
    returns. *)
Record GenBody : Type := {
  gb_setup : Prog (option Frame);
  gb_resume : Frame -> PyVal -> Prog (option Frame)
}.

(** A generator function, called with positional arguments: the call either
    fails to bind them ([TypeError]) or gives a generator, none of whose code
    has run yet. *)
Definition GenFunc : Type := list PyVal -> Exn + GenBody.

(** What [add_state] is given as [handler_func]. *)
Inductive Callable : Type :=
| CNone                          (* the default, [None] *)
| CGen (g : GenFunc)             (* a generator function *)
| CInst (i : ref) (g : GenFunc). (* an instance whose class has the generator
                                    function [g] as [__call__] *)

(** [h(fsm)] *)
Definition call_handler (h : Callable) (fsm : ref) : Exn + GenBody :=
  match h with
  | CNone => inl (Exc TypeError "'NoneType' object is not callable")
  | CGen g => g [VFsm fsm]
  | CInst i g => g [VInst i; VFsm fsm]
  end.

Inductive GenState : Type :=
| GenCreated                  (* no code has run *)
| GenSuspended (fr : Frame)   (* parked at a [yield] *)
| GenFinished.                (* the function returned or raised *)

Record Generator : Type := {
  gen_body : GenBody;
  gen_state : GenState
}.

(** ** The store *)

(** class State *)
Record State : Type := {
  name : string;
  handler_func : Callable;
  from_states : list PyVal;
  generator : option Generator   (* no such attribute before [start] *)
}.

(** [State.__init__(self, name)]; [from_states] is [set([])]. *)
Definition State_init (n : string) : State :=
  {| name := n; handler_func := CNone; from_states := []; generator := None |}.

(** class FiniteStateMachine *)
Record FiniteStateMachine : Type := {
  initial_state : option ref;
  current_state : option ref;
  states : gmap string ref
}.

(** [FiniteStateMachine.__init__(self)] *)
Definition FiniteStateMachine_init : FiniteStateMachine :=
  {| initial_state := None; current_state := None; states := ∅ |}.

Record World : Type := {
  objs : list State;                 (* the [State] objects *)
  fsms : list FiniteStateMachine;    (* the machines *)
  insts : list (gmap string PyVal);  (* the attributes of the instances of user classes *)
  stdout : list string;              (* the lines printed *)
  delivered : list (ref * PyVal)     (* ghost: the events handed to suspended
                                        generators, with the state that owns each *)
}.

Definition empty_world : World :=
  {| objs := []; fsms := []; insts := []; stdout := []; delivered := [] |}.

Definition set_objs (f : list State -> list State) (w : World) : World :=
  {| objs := f (objs w); fsms := fsms w; insts := insts w;
     stdout := stdout w; delivered := delivered w |}.
Definition set_fsms (f : list FiniteStateMachine -> list FiniteStateMachine)
    (w : World) : World :=
  {| objs := objs w; fsms := f (fsms w); insts := insts w;
     stdout := stdout w; delivered := delivered w |}.
Definition set_insts (f : list (gmap string PyVal) -> list (gmap string PyVal))
    (w : World) : World :=
  {| objs := objs w; fsms := fsms w; insts := f (insts w);
     stdout := stdout w; delivered := delivered w |}.
Definition set_stdout (f : list string -> list string) (w : World) : World :=
  {| objs := objs w; fsms := fsms w; insts := insts w;
     stdout := f (stdout w); delivered := delivered w |}.
Definition set_delivered (f : list (ref * PyVal) -> list (ref * PyVal))
    (w : World) : World :=
  {| objs := objs w; fsms := fsms w; insts := insts w;
     stdout := stdout w; delivered := f (delivered w) |}.

(** ** Computations: a store threaded through, an exception or a value out.
    An exception leaves the store as it was when it was raised. *)

Definition M (A : Type) : Type := World -> World * (Exn + A).

Definition ret {A : Type} (a : A) : M A := fun w => (w, inr a).
Definition raise {A : Type} (e : Exn) : M A := fun w => (w, inl e).
Definition bind {A B : Type} (c : M A) (f : A -> M B) : M B :=
  fun w => match c w with
           | (w', inr a) => f a w'
           | (w', inl e) => (w', inl e)
           end.
Definition modify (f : World -> World) : M unit := fun w => (f w, inr tt).
Definition gets {A : Type} (f : World -> A) : M A := fun w => (w, inr (f w)).

Notation "'let*' x ':=' c 'in' k" := (bind c (fun x => k))
  (at level 10, x name, c at level 100, k at level 200).
Notation "c1 '>>' c2" := (bind c1 (fun _ => c2))
  (at level 100, c2 at level 200, right associativity).

(** An object behind a reference. *)
Definition deref {A : Type} (get : World -> list A) (r : ref) : M A :=
  fun w => match get w !! r with
           | Some a => (w, inr a)
           | None => (w, inl (Exc BadReference ""))
           end.
Definition get_state : ref -> M State := deref objs.
Definition get_fsm : ref -> M FiniteStateMachine := deref fsms.

(** Allocation: [State(n)], [FiniteStateMachine()], an instance with its
    attributes. *)
Definition new_State (n : string) : M ref :=
  fun w => (set_objs (fun l => (l ++ [State_init n])%list) w, inr (length (objs w))).
Definition new_FiniteStateMachine : M ref :=
  fun w => (set_fsms (fun l => (l ++ [FiniteStateMachine_init])%list) w, inr (length (fsms w))).
Definition new_instance (attrs : gmap string PyVal) : M ref :=
  fun w => (set_insts (fun l => (l ++ [attrs])%list) w, inr (length (insts w))).

(** [try: c except Exception as e], the outcome as a value *)
Definition attempt {A : Type} (c : M A) : M (Exn + A) :=
  fun w => let (w', r) := c w in (w', inr r).

Fixpoint for_each {A : Type} (l : list A) (f : A -> M unit) : M unit :=
  match l with
  | [] => ret tt
  | a :: l' => f a >> for_each l' f
  end.

(** [None] or a [State], as a value *)
Definition state_val (o : option ref) : PyVal :=
  match o with Some r => VState r | None => VNone end.

(** [o.name] for [o] a [State] or [None] *)
Definition attr_name (o : option ref) : M string :=
  match o with
  | None => raise (Exc AttributeError "'NoneType' object has no attribute 'name'")
  | Some r => let* st := get_state r in ret (name st)
  end.

(** ** class FiniteStateMachine: the methods *)

Definition with_current_state (c : option ref) (fsm : FiniteStateMachine)
    : FiniteStateMachine :=
  {| initial_state := initial_state fsm; current_state := c; states := states fsm |}.

(** [self.current_state = c] *)
Definition set_current_state (self : ref) (c : option ref) : M unit :=
  let* fsm := get_fsm self in
  modify (set_fsms (<[self := with_current_state c fsm]>)).

(** [def transition_to(self, to_state)] *)
Definition transition_to (self : ref) (to_state : PyVal) : M unit :=
  match to_state with
  | VState t =>
      let* fsm := get_fsm self in
      let* target := get_state t in
      if negb (py_in (state_val (current_state fsm)) (from_states target)) then
        let* cur_name := attr_name (current_state fsm) in
        raise (Exc InvalidStateTransition
                 ("Cannot transition from state " +:+ cur_name +:+
                  " to state " +:+ name target))
      else set_current_state self (Some t)
  | _ => raise (Exc TypeError "")
  end.

Definition with_generator (g : option Generator) (st : State) : State :=
  {| name := name st; handler_func := handler_func st;
     from_states := from_states st; generator := g |}.

(** [state.generator = g] *)
Definition set_generator (state : ref) (g : option Generator) : M unit :=
  let* st := get_state state in
  modify (set_objs (<[state := with_generator g st]>)).

(** [recv.attr] for the attributes that are values of the embedding: the
    attributes of an instance, [current_state] and [initial_state] of a
    machine, [name] of a state. *)
Definition py_getattr (recv : PyVal) (attr : string) (w : World) : Exn + PyVal :=
  let missing := inl (Exc AttributeError attr) in
  match recv with
  | VInst i =>
      match insts w !! i with
      | Some d => match d !! attr with Some v => inr v | None => missing end
      | None => inl (Exc BadReference "")
      end
  | VFsm m =>
      match fsms w !! m with
      | Some fsm =>
          if bool_decide (attr = "current_state") then inr (state_val (current_state fsm))
          else if bool_decide (attr = "initial_state") then inr (state_val (initial_state fsm))
          else missing
      | None => inl (Exc BadReference "")
      end
  | VState r =>
      match objs w !! r with
      | Some st => if bool_decide (attr = "name") then inr (VStr (name st)) else missing
      | None => inl (Exc BadReference "")
      end
  | _ => missing
  end.

(** Running a piece of handler code. *)
Fixpoint run {A : Type} (p : Prog A) : M A :=
  match p with
  | Return a => ret a
  | Raise e => raise e
  | CallTransitionTo recv t k => fun w =>
      match recv with
      | VFsm m =>
          let (w', r) := transition_to m t w in
          run (k (match r with inl e => Some e | inr _ => None end)) w'
      | _ => run (k (Some (Exc AttributeError "transition_to"))) w
      end
  | GetAttr recv attr k => fun w => run (k (py_getattr recv attr w)) w
  | SetAttr i attr v k => fun w =>
      match insts w !! i with
      | Some d => run k (set_insts (<[i := <[attr := v]> d]>) w)
      | None => (w, inl (Exc BadReference ""))
      end
  | Print line k => fun w => run k (set_stdout (fun l => (l ++ [line])%list) w)
  end.

(** The generator of [state] after its code ran to [res]: parked at the next
    [yield], or finished, with [StopIteration] when its function returned and
    with the exception when it raised. *)
Definition park (state : ref) (b : GenBody) (res : Exn + option Frame) : M unit :=
  match res with
  | inr (Some fr) =>
      set_generator state (Some {| gen_body := b; gen_state := GenSuspended fr |})
  | inr None =>
      set_generator state (Some {| gen_body := b; gen_state := GenFinished |}) >>
      raise (Exc StopIteration "")
  | inl e =>
      set_generator state (Some {| gen_body := b; gen_state := GenFinished |}) >>
      raise e
  end.

(** [state.generator.send(v)]; [next(state.generator)] is [send(None)]. *)
Definition gen_send (state : ref) (v : PyVal) : M unit :=
  let* st := get_state state in
  match generator st with
  | None => raise (Exc AttributeError "'State' object has no attribute 'generator'")
  | Some g =>
      match gen_state g with
      | GenCreated =>
          if py_eqb v VNone then
            let* res := attempt (run (gb_setup (gen_body g))) in
            park state (gen_body g) res
          else raise (Exc TypeError "can't send non-None value to a just-started generator")
      | GenSuspended fr =>
          modify (set_delivered (fun l => (l ++ [(state, v)])%list)) >>
          let* res := attempt (run (gb_resume (gen_body g) fr v)) in
          park state (gen_body g) res
      | GenFinished => raise (Exc StopIteration "")
      end
  end.

(** The [from_states] argument of [add_state]: a single [State], a sequence
    of values, or [None]. *)
Inductive FromStates : Type :=
| FromNone
| FromState (r : ref)
| FromSeq (l : list PyVal).

(** [(from_states, ) if isinstance(from_states, State) else tuple(from_states or [])] *)
Definition from_states_tuple (fs : FromStates) : list PyVal :=
  match fs with
  | FromState r => [VState r]
  | FromSeq l => l
  | FromNone => []
  end.

Definition register (n : string) (state : ref) (fsm : FiniteStateMachine)
    : FiniteStateMachine :=
  {| initial_state := initial_state fsm; current_state := current_state fsm;
     states := <[n := state]> (states fsm) |}.

Definition make_initial (state : ref) (fsm : FiniteStateMachine)
    : FiniteStateMachine :=
  {| initial_state := Some state; current_state := Some state; states := states fsm |}.

Definition configure (t : list PyVal) (h : Callable) (st : State) : State :=
  {| name := name st; handler_func := h; from_states := t; generator := generator st |}.

(** [def add_state(self, state, from_states, handler_func=None, initial=False)] *)
Definition add_state (self state : ref) (from_states : FromStates)
    (handler_func : Callable) (initial : bool) : M unit :=
  let from_states_tuple := from_states_tuple from_states in
  if negb initial && negb (1 <=? length from_states_tuple)%nat then
    raise (Exc ValueError "")
  else if negb (forallb isinstance_State from_states_tuple) then
    raise (Exc TypeError "")
  else
    let* fsm := get_fsm self in
    let* st := get_state state in
    if bool_decide (is_Some (states fsm !! name st)) then
      raise (Exc KeyError "State already exists in FSM.")
    else if initial && bool_decide (is_Some (initial_state fsm)) then
      let* initial_name := attr_name (initial_state fsm) in
      raise (Exc RuntimeError
               ("State machine cannot have multiple initial states (" +:+
                initial_name +:+ ", " +:+ name st +:+ ")"))
    else
      modify (set_fsms (alter (register (name st) state) self)) >>
      modify (set_objs (alter (configure from_states_tuple handler_func) state)) >>
      if initial then modify (set_fsms (alter (make_initial state) self))
      else ret tt.

(** [def start(self)]. The registry is walked in the order of [map_to_list]:
    Python fixes no order for a dict of 2016, and nothing below depends on
    one. *)
Definition start (self : ref) : M unit :=
  let* fsm := get_fsm self in
  match initial_state fsm with
  | None => raise (Exc RuntimeError "No initial state set on the state machine.")
  | Some i =>
      set_current_state self (Some i) >>
      for_each (map_to_list (states fsm)).*2 (fun state =>
        let* st := get_state state in
        match call_handler (handler_func st) self with
        | inl e => raise e
        | inr b =>
            set_generator state (Some {| gen_body := b; gen_state := GenCreated |}) >>
            gen_send state VNone
        end)
  end.

(** [def dispatch_event(self, event)]:
    [self.states[self.current_state.name].generator.send(event)] *)
Definition dispatch_event (self : ref) (event : PyVal) : M unit :=
  let* fsm := get_fsm self in
  let* n := attr_name (current_state fsm) in
  match states fsm !! n with
  | None => raise (Exc KeyError n)
  | Some state => gen_send state event
  end.

(** ** Plain functions and the decorator *)

(** A function [def f(p1, ..., pn)]: its parameter names and its body over
    the bound parameters; what it returns is dropped by every caller here. *)
Record PyFunc : Type := {
  params : list string;
  body : gmap string PyVal -> Prog unit
}.

(** Positional arguments take the parameters in order; one too many fails. *)
Fixpoint bind_positional (ps : list string) (args : list PyVal)
    (env : gmap string PyVal) : option (gmap string PyVal) :=
  match args, ps with
  | [], _ => Some env
  | a :: args', p :: ps' => bind_positional ps' args' (<[p := a]> env)
  | _ :: _, [] => None
  end.

(** A keyword argument must name a parameter that is not bound yet. *)
Fixpoint bind_keywords (ps : list string) (kwargs : list (string * PyVal))
    (env : gmap string PyVal) : option (gmap string PyVal) :=
  match kwargs with
  | [] => Some env
  | (k, v) :: rest =>
      if bool_decide (k ∈ ps) && bool_decide (env !! k = None)
      then bind_keywords ps rest (<[k := v]> env)
      else None
  end.

(** The binding of a call of [f] with positional and keyword arguments, or the [TypeError] of a call
    that does not fit the parameters. *)
Definition bind_args (ps : list string) (args : list PyVal)
    (kwargs : list (string * PyVal)) : Exn + gmap string PyVal :=
  match bind_positional ps args ∅ with
  | None => inl (Exc TypeError "too many positional arguments")
  | Some env =>
      match bind_keywords ps kwargs env with
      | None => inl (Exc TypeError "unexpected keyword argument")
      | Some env' =>
          if forallb (fun p => bool_decide (is_Some (env' !! p))) ps
          then inr env'
          else inl (Exc TypeError "missing required argument")
      end
  end.

Definition call (f : PyFunc) (args : list PyVal) (kwargs : list (string * PyVal))
    : Prog unit :=
  match bind_args (params f) args kwargs with
  | inl e => Raise e
  | inr env => body f env
  end.

(** A parameter or local variable read in a body. *)
Definition var (env : gmap string PyVal) (x : string) : PyVal :=
  default VNone (env !! x).

(** [def state_handler(f)]: the generator function [func_wrapper], whose
    loop is [event = yield] and then [f] called with [args] and the keyword
    argument [event=event]. A [Frame] holds
    the variables a generator assigns; its parameters are bound once and for
    all at the call. *)
Definition state_handler (f : PyFunc) : GenFunc := fun args =>
  inr {| gb_setup := Return (Some ∅);
         gb_resume := fun fr event =>
           prog_bind (call f args [("event", event)])
             (fun _ => Return (Some (<["event" := event]> fr))) |}.

(** ** The drivers and handlers of the repository *)

(** The value of [fsm.current_state] in a store. *)
Definition current_of (fsm : ref) (w : World) : option ref :=
  fsms w !! fsm ≫= current_state.

Definition initial_of (fsm : ref) (w : World) : option ref :=
  fsms w !! fsm ≫= initial_state.

Definition registry_of (fsm : ref) (w : World) : gmap string ref :=
  default ∅ (states <$> fsms w !! fsm).

(** [for event in event_list: fsm.dispatch_event(event)], with the current
    state noted after every dispatch; the first exception ends the loop. *)
Fixpoint dispatch_all (fsm : ref) (event_list : list PyVal) : M (list (option ref)) :=
  match event_list with
  | [] => ret []
  | event :: rest =>
      dispatch_event fsm event >>
      let* c := gets (current_of fsm) in
      let* cs := dispatch_all fsm rest in
      ret (c :: cs)
  end.

Module Turnstile.

Section Handlers.
(** The module's globals. *)
Variables STATE_LOCKED STATE_UNLOCKED : ref.

(** [def state_locked_handler(fsm, event)], before its decorator *)
Definition state_locked_handler_fn : PyFunc :=
  {| params := ["fsm"; "event"];
     body := fun env =>
       if py_eqb (var env "event") (VStr "COIN") then
         Print "Coin deposited, unlocking the gate."
           (transition_to_then (var env "fsm") (VState STATE_UNLOCKED) (Return tt))
       else if py_eqb (var env "event") (VStr "CUST_PASSED") then
         Print "Customer trying to pass through a locked gate... rejected!"
           (Return tt)
       else
         Print ("Unrecognized event (" +:+ py_str (var env "event") +:+ ")")
           (Return tt) |}.

(** [@pystate.state_handler] *)
Definition state_locked_handler : GenFunc := state_handler state_locked_handler_fn.

(** [def state_unlocked_handler(fsm)], written by hand *)
Definition state_unlocked_handler : GenFunc := fun args =>
  match args with
  | [fsm] =>
      inr {| gb_setup := Return (Some ∅);
             gb_resume := fun fr event =>
               let fr' := <["event" := event]> fr in
               if py_eqb event (VStr "CUST_PASSED") then
                 Print "Customer passed through the gate... relocking the gate."
                   (transition_to_then fsm (VState STATE_LOCKED) (Return (Some fr')))
               else if py_eqb event (VStr "COIN") then
                 Print "Another coin deposited... ignoring... gate already unlocked"
                   (Return (Some fr'))
               else
                 Print ("Unrecognized event (" +:+ py_str event +:+ ")")
                   (Return (Some fr')) |}
  | _ => inl (Exc TypeError "state_unlocked_handler() takes 1 positional argument")
  end.
End Handlers.

Definition event_list : list PyVal :=
  [VStr "COIN"; VStr "CUST_PASSED"; VStr "COIN"; VStr "COIN";
   VStr "CUST_PASSED"; VStr "CUST_PASSED"].

(** The module up to [fsm.start()]; the states are numbered as they are
    created: [STATE_LOCKED] is 0, [STATE_UNLOCKED] is 1. *)
Definition STATE_LOCKED : ref := 0.
Definition STATE_UNLOCKED : ref := 1.

Definition build : M ref :=
  new_State "STATE_LOCKED" >>
  new_State "STATE_UNLOCKED" >>
  let* fsm := new_FiniteStateMachine in
  add_state fsm STATE_LOCKED (FromState STATE_UNLOCKED)
    (CGen (state_locked_handler STATE_UNLOCKED)) true >>
  add_state fsm STATE_UNLOCKED (FromState STATE_LOCKED)
    (CGen (state_unlocked_handler STATE_LOCKED)) false >>
  ret fsm.

(** The store after [fsm.start()]. *)
Definition started : World := (bind build start empty_world).1.

(** The module: the current state after [fsm.start()] and after every
    dispatch of the loop. *)
Definition main : M (list (option ref)) :=
  let* fsm := build in
  start fsm >>
  let* c := gets (current_of fsm) in
  let* cs := dispatch_all fsm event_list in
  ret (c :: cs).

End Turnstile.

Module CallableTest.

Section Handlers.
Variables STATE_A STATE_B : ref.

(** [StateA.__call__(self, fsm, event)], before its decorator *)
Definition StateA_call_fn : PyFunc :=
  {| params := ["self"; "fsm"; "event"];
     body := fun env =>
       if py_eqb (var env "event") (VStr "GOTO_B") then
         transition_to_then (var env "fsm") (VState STATE_B) (Return tt)
       else if py_eqb (var env "event") (VStr "FLIP_FOO") then
         getattr_then (var env "self") "foo" (fun foo =>
           match var env "self" with
           | VInst i =>
               SetAttr i "foo" (VBool (py_eqb foo (VBool false)))
                 (getattr_then (var env "self") "foo" (fun foo' =>
                    Print ("foo=" +:+ py_str foo') (Return tt)))
           | _ => Raise (Exc AttributeError "foo")
           end)
       else if py_eqb (var env "event") (VStr "END") then
         Raise (Exc FsmExit "")
       else
         Print ("Unrecognized event (" +:+ py_str (var env "event") +:+ ")")
           (Return tt) |}.

Definition StateA_call : GenFunc := state_handler StateA_call_fn.

(** [def state_b_handler(fsm)]: [bar = 0] above the loop *)
Definition state_b_handler : GenFunc := fun args =>
  match args with
  | [fsm] =>
      inr {| gb_setup := Return (Some {[ "bar" := VInt 0 ]});
             gb_resume := fun fr event =>
               let fr' := <["event" := event]> fr in
               if py_eqb event (VStr "GOTO_A") then
                 transition_to_then fsm (VState STATE_A) (Return (Some fr'))
               else if py_eqb event (VStr "INCR_BAR") then
                 match var fr' "bar" with
                 | VInt bar =>
                     let fr'' := <["bar" := VInt (bar + 1)]> fr' in
                     Print ("bar=" +:+ py_str (var fr'' "bar")) (Return (Some fr''))
                 | _ => Raise (Exc TypeError "unsupported operand type(s) for +=")
                 end
               else
                 Print ("Unrecognized event (" +:+ py_str event +:+ ")")
                   (Return (Some fr')) |}
  | _ => inl (Exc TypeError "state_b_handler() takes 1 positional argument")
  end.
End Handlers.

Definition event_list : list PyVal :=
  [VStr "FLIP_FOO"; VStr "GOTO_B"; VStr "INCR_BAR"; VStr "GOTO_A"; VStr "FLIP_FOO";
   VStr "FLIP_FOO"; VStr "GOTO_B"; VStr "INCR_BAR"; VStr "GOTO_A"; VStr "END"].

Definition STATE_A : ref := 0.
Definition STATE_B : ref := 1.

(** The module up to and without [fsm.start()]; [state_a = StateA()] sets
    [self.foo = False]. *)
Definition build : M ref :=
  new_State "STATE_A" >>
  new_State "STATE_B" >>
  let* fsm := new_FiniteStateMachine in
  let* state_a := new_instance {[ "foo" := VBool false ]} in
  add_state fsm STATE_A (FromState STATE_B) (CInst state_a (StateA_call STATE_B)) true >>
  add_state fsm STATE_B (FromState STATE_A) (CGen (state_b_handler STATE_A)) false >>
  ret fsm.

Definition started : World := (bind build start empty_world).1.

Definition main : M (list (option ref)) :=
  let* fsm := build in
  start fsm >>
  dispatch_all fsm event_list.

End CallableTest.

(** ** What a dispatch resumes *)

(** The state whose generator [self.dispatch_event] sends to: the entry of
    the registry under the name of the current state. *)
Definition target_of (self : ref) (w : World) : option ref :=
  fsm ← fsms w !! self;
  c ← current_state fsm;
  st ← objs w !! c;
  states fsm !! name st.

(** The body and the frame of the generator of [state], when it is parked at
    a [yield]. *)
Definition parked_at (state : ref) (w : World) : option (GenBody * Frame) :=
  st ← objs w !! state;
  g ← generator st;
  match gen_state g with
  | GenSuspended fr => Some (gen_body g, fr)
  | _ => None
  end.

(** The store with the event noted as handed to [state]. *)
Definition noted (state : ref) (event : PyVal) (w : World) : World :=
  set_delivered (fun l => (l ++ [(state, event)])%list) w.


(** The store after [self.current_state = t]. *)
Definition moved (self t : ref) (fsm : FiniteStateMachine) (w : World) : World :=
  set_fsms (<[self := with_current_state (Some t) fsm]>) w.


(** The state of a generator after its code ran to [res], and what the
    [send] that ran it gives its caller. *)
Definition gen_state_after (res : Exn + option Frame) : GenState :=
  match res with
  | inr (Some fr) => GenSuspended fr
  | _ => GenFinished
  end.

Definition send_outcome (res : Exn + option Frame) : Exn + unit :=
  match res with
  | inr (Some _) => inr tt
  | inr None => inl (Exc StopIteration "")
  | inl e => inl e
  end.


(** The three-state machine at the end of [pystate.py]. *)
Module Demo.

Section Handlers.
Variables STATE_A STATE_B STATE_C : ref.

(** [raise ValueError('State %s - Unrecognized event (%s)' %
    (fsm.current_state.name, event))] *)
Definition unrecognized (env : gmap string PyVal) : Prog unit :=
  getattr_then (var env "fsm") "current_state" (fun c =>
    getattr_then c "name" (fun n =>
      Raise (Exc ValueError
               ("State " +:+ py_str n +:+ " - Unrecognized event (" +:+
                py_str (var env "event") +:+ ")")))).

Definition state_a_handler_fn : PyFunc :=
  {| params := ["fsm"; "event"];
     body := fun env =>
       if py_eqb (var env "event") (VStr "GOTO_B") then
         Print "Transitioning to state B."
           (transition_to_then (var env "fsm") (VState STATE_B) (Return tt))
       else unrecognized env |}.

Definition state_b_handler_fn : PyFunc :=
  {| params := ["fsm"; "event"];
     body := fun env =>
       if py_eqb (var env "event") (VStr "GOTO_C") then
         Print "Transitioning to state C."
           (transition_to_then (var env "fsm") (VState STATE_C) (Return tt))
       else if py_eqb (var env "event") (VStr "GOTO_A") then
         Print "Transitioning to state A (should raise an InvalidStateTransition.)"
           (transition_to_then (var env "fsm") (VState STATE_A) (Return tt))
       else unrecognized env |}.

Definition state_c_handler_fn : PyFunc :=
  {| params := ["fsm"; "event"];
     body := fun env =>
       if py_eqb (var env "event") (VStr "GOTO_A") then
         Print "Transitioning to state A."
           (transition_to_then (var env "fsm") (VState STATE_A) (Return tt))
       else if py_eqb (var env "event") (VStr "END") then
         Raise (Exc FsmExit "")
       else unrecognized env |}.
End Handlers.

Definition STATE_A : ref := 0.
Definition STATE_B : ref := 1.
Definition STATE_C : ref := 2.

Definition build : M ref :=
  new_State "STATE_A" >>
  new_State "STATE_B" >>
  new_State "STATE_C" >>
  let* fsm := new_FiniteStateMachine in
  add_state fsm STATE_A (FromState STATE_C)
    (CGen (state_handler (state_a_handler_fn STATE_B))) true >>
  add_state fsm STATE_B (FromState STATE_A)
    (CGen (state_handler (state_b_handler_fn STATE_A STATE_C))) false >>
  add_state fsm STATE_C (FromState STATE_B)
    (CGen (state_handler (state_c_handler_fn STATE_A))) false >>
  ret fsm.


(** [print(line)] in the driver *)
Definition py_print (line : string) : M unit :=
  modify (set_stdout (fun l => (l ++ [line])%list)).

(** The classes that the [except] clauses of [run_event_list] name. *)
Definition caught (c : ExnClass) : bool :=
  match c with
  | ValueError | InvalidStateTransition | FsmExit => true
  | _ => false
  end.

(** What the [except] clause for an exception prints. *)
Definition report (e : Exn) : string :=
  match e with
  | Exc ValueError msg => "ValueError exception - " +:+ msg
  | Exc InvalidStateTransition msg => "InvalidStateTransition exception - " +:+ msg
  | _ => "state machine stopped in an orderly fashion"
  end.

(** [def run_event_list(fsm, event_list)]: [fsm.start()], then the loop of
    dispatches inside a [try] with three [except] clauses. *)
Definition run_event_list (fsm : ref) (event_list : list PyVal) : M unit :=
  start fsm >>
  let* r := attempt (for_each event_list (dispatch_event fsm)) in
  match r with
  | inr _ => ret tt
  | inl (Exc ValueError msg) => py_print ("ValueError exception - " +:+ msg)
  | inl (Exc InvalidStateTransition msg) =>
      py_print ("InvalidStateTransition exception - " +:+ msg)
  | inl (Exc FsmExit _) => py_print "state machine stopped in an orderly fashion"
  | inl e => raise e
  end.

Definition event_list_1 : string * list PyVal :=
  ("event_list_1 (no errors)",
   [VStr "GOTO_B"; VStr "GOTO_C"; VStr "GOTO_A"; VStr "GOTO_B"; VStr "GOTO_C";
    VStr "END"]).
Definition event_list_2 : string * list PyVal :=
  ("event_list_2 (raise InvalidStateTransition exception)",
   [VStr "GOTO_B"; VStr "GOTO_C"; VStr "GOTO_A"; VStr "GOTO_B"; VStr "GOTO_A";
    VStr "GOTO_C"; VStr "END"]).
Definition event_list_3 : string * list PyVal :=
  ("event_list_3 (raise ValueError exception)",
   [VStr "GOTO_B"; VStr "GOTO_C"; VStr "GOTO_A"; VStr "END"; VStr "GOTO_C";
    VStr "END"]).

(** The loop at the end of the module, over any event lists; the line that
    announces a list starts with a line feed. *)
Definition run_event_lists (fsm : ref) (event_lists : list (string * list PyVal))
    : M unit :=
  for_each event_lists (fun event_list =>
    py_print (String (Ascii.ascii_of_nat 10) "Testing event_list " +:+ event_list.1) >>
    run_event_list fsm event_list.2).

(** The module from its first line to its last. *)
Definition main : M unit :=
  let* fsm := build in
  run_event_lists fsm [event_list_1; event_list_2; event_list_3].

End Demo.

(** The handler of [st], called with the machine [self], gives a generator
    with body [b] whose code up to the first [yield] parks with the frame
    [fr] and does nothing to the store: it sets local variables at most. *)
Definition primes_to (self : ref) (st : State) (b : GenBody) (fr : Frame) : Prop :=
  call_handler (handler_func st) self = inr b /\
  forall w, run (gb_setup b) w = (w, inr (Some fr)).

(** Every State of the registry of [fsm] has such a handler. *)
Definition handlers_prime (self : ref) (fsm : FiniteStateMachine) (w : World) : Prop :=
  forall n r, states fsm !! n = Some r ->
    exists st b fr, objs w !! r = Some st /\ primes_to self st b fr.

(** The generator that [start] leaves on a State. *)
Definition primed (b : GenBody) (fr : Frame) (st : State) : State :=
  with_generator (Some {| gen_body := b; gen_state := GenSuspended fr |}) st.

(** The body of the loop of [start]. *)
Definition prime (self state : ref) : M unit :=
  let* st := get_state state in
  match call_handler (handler_func st) self with
  | inl e => raise e
  | inr b =>
      set_generator state (Some {| gen_body := b; gen_state := GenCreated |}) >>
      gen_send state VNone
  end.


(** The stores the examples start from. *)
Definition turnstile_built : World := (Turnstile.build empty_world).1.

(** [callable_test.py] after [fsm.start()] and the events FLIP_FOO, GOTO_B,
    INCR_BAR: the flag of [StateA] is set and the counter of state B is 1. *)
Definition callable_running : World :=
  (bind CallableTest.build (fun fsm =>
     start fsm >>
     dispatch_all fsm [VStr "FLIP_FOO"; VStr "GOTO_B"; VStr "INCR_BAR"]) empty_world).1.

(** ** The registry and the current state *)





(** Two machines that share their States: [X] is the initial state of the
    first machine and [Y] that of the second, each may be entered from the
    other, and the handler of [X] moves to [Y] on any event. *)
Module Shared.

Definition X : ref := 0.
Definition Y : ref := 1.

Definition go_handler_fn (target : ref) : PyFunc :=
  {| params := ["fsm"; "event"];
     body := fun env =>
       transition_to_then (var env "fsm") (VState target) (Return tt) |}.

Definition main : M unit :=
  new_State "X" >>
  new_State "Y" >>
  let* fsm1 := new_FiniteStateMachine in
  let* fsm2 := new_FiniteStateMachine in
  add_state fsm1 X (FromState Y) (CGen (state_handler (go_handler_fn Y))) true >>
  add_state fsm2 Y (FromState X) (CGen (state_handler (go_handler_fn X))) true >>
  start fsm1 >>
  dispatch_event fsm1 (VStr "GO").

End Shared.

(** The store after a call of [add_state] that passed its checks. *)
Definition added (self state : ref) (n : string) (t : list PyVal) (h : Callable)
    (initial : bool) (w : World) : World :=
  let w1 := set_objs (alter (configure t h) state)
              (set_fsms (alter (register n state) self) w) in
  if initial then set_fsms (alter (make_initial state) self) w1 else w1.

(** ** The two ways to write a handler *)

(** The hand-written form that the specification sets beside the decorated
    one, a generator function whose own loop calls [f] on each event it
    receives:
    [def handler(fsm): while True: event = yield; f(fsm, event)]. *)
Definition by_hand (f : PyFunc) : GenFunc := fun args =>
  match args with
  | [fsm] =>
      inr {| gb_setup := Return (Some ∅);
             gb_resume := fun fr event =>
               prog_bind (call f [fsm; event] [])
                 (fun _ => Return (Some (<["event" := event]> fr))) |}
  | _ => inl (Exc TypeError "handler() takes 1 positional argument")
  end.

(** What a driver does to a store, one call at a time. *)
Inductive Op : Type :=
| OpNewState (n : string)
| OpNewMachine
| OpNewInstance (attrs : gmap string PyVal)
| OpAddState (self state : ref) (fs : FromStates) (h : Callable) (initial : bool)
| OpStart (self : ref)
| OpDispatch (self : ref) (event : PyVal)
| OpTransitionTo (self : ref) (to_state : PyVal).

Definition do_op (o : Op) : M unit :=
  match o with
  | OpNewState n => new_State n >> ret tt
  | OpNewMachine => new_FiniteStateMachine >> ret tt
  | OpNewInstance attrs => new_instance attrs >> ret tt
  | OpAddState self state fs h initial => add_state self state fs h initial
  | OpStart self => start self
  | OpDispatch self event => dispatch_event self event
  | OpTransitionTo self v => transition_to self v
  end.

(** The calls of a driver that catches what each call raises and goes on:
    the store at the end and the outcome of every call. *)
Fixpoint drive (ops : list Op) (w : World) : World * list (Exn + unit) :=
  match ops with
  | [] => (w, [])
  | o :: rest =>
      let (w1, r) := do_op o w in
      let (w2, rs) := drive rest w1 in
      (w2, r :: rs)
  end.

(** What can be seen of a store: the machines, the instances, the lines
    printed, the events delivered, and every State but for the object that
    is its [handler_func]. *)
Definition visible (w : World)
    : list FiniteStateMachine * list (gmap string PyVal) * list string *
      list (ref * PyVal) * list (string * list PyVal * option Generator) :=
  (fsms w, insts w, stdout w, delivered w,
   (fun st => (name st, from_states st, generator st)) <$> objs w).

(** Two handlers that give the same generator to every machine. *)
Definition same_handler (h1 h2 : Callable) : Prop :=
  forall m, call_handler h1 m = call_handler h2 m.

Definition same_state (st1 st2 : State) : Prop :=
  name st1 = name st2 /\ from_states st1 = from_states st2 /\
  generator st1 = generator st2 /\ same_handler (handler_func st1) (handler_func st2).

(** Two stores that differ in handlers at most, and these give the same
    generators. *)
Definition same_world (w1 w2 : World) : Prop :=
  fsms w1 = fsms w2 /\ insts w1 = insts w2 /\ stdout w1 = stdout w2 /\
  delivered w1 = delivered w2 /\ Forall2 same_state (objs w1) (objs w2).

Definition same_outcome {A : Type} (R : A -> A -> Prop) (r1 r2 : Exn + A) : Prop :=
  match r1, r2 with
  | inl e1, inl e2 => e1 = e2
  | inr a1, inr a2 => R a1 a2
  | _, _ => False
  end.

(** Two computations that take such stores to such stores, with the same
    exception or with results related by [R]. *)
Definition same_run {A : Type} (R : A -> A -> Prop) (c1 c2 : M A) : Prop :=
  forall w1 w2, same_world w1 w2 ->
    same_world (c1 w1).1 (c2 w2).1 /\ same_outcome R (c1 w1).2 (c2 w2).2.

(** A function whose second parameter is not named [event]. *)
Definition note_fn : PyFunc :=
  {| params := ["fsm"; "ev"];
     body := fun env => Print ("got " +:+ py_str (var env "ev")) (Return tt) |}.

(** One state, registered with the handler [h], started, and one event. *)
Definition one_state (h : Callable) : M unit :=
  new_State "ONLY" >>
  let* fsm := new_FiniteStateMachine in
  add_state fsm 0 FromNone h true >>
  start fsm >>
  dispatch_event fsm (VStr "PING").


(** ** What no call undoes *)

(** [w'] is a later store than [w]: every object of [w] is there, a State
    under its name, a machine with its initial state if it had one and with
    every entry of its registry, and the lines printed and the events
    delivered are those of [w] with more after them. *)
Definition later (w w' : World) : Prop :=
  (forall r st, objs w !! r = Some st ->
     exists st', objs w' !! r = Some st' /\ name st' = name st) /\
  (forall m fsm, fsms w !! m = Some fsm ->
     exists fsm', fsms w' !! m = Some fsm' /\
       (forall i, initial_state fsm = Some i -> initial_state fsm' = Some i) /\
       (forall n r, states fsm !! n = Some r -> states fsm' !! n = Some r)) /\
  (forall i, is_Some (insts w !! i) -> is_Some (insts w' !! i)) /\
  stdout w `prefix_of` stdout w' /\
  delivered w `prefix_of` delivered w'.

(** A computation only takes a store to a later one. *)
Definition monotone {A : Type} (c : M A) : Prop := forall w, later w (c w).1.

(** The three-state machine of [pystate.py], registered and not started. *)
Definition demo_built : World := (Demo.build empty_world).1.

(** ** Drivers that differ in the style of their handlers *)

(** Two calls of a driver that differ at most in the handler given to
    [add_state], and there in two handlers that give the same generators. *)
Definition same_op (o1 o2 : Op) : Prop :=
  match o1, o2 with
  | OpAddState m1 s1 fs1 h1 i1, OpAddState m2 s2 fs2 h2 i2 =>
      m1 = m2 /\ s1 = s2 /\ fs1 = fs2 /\ i1 = i2 /\ same_handler h1 h2
  | _, _ => o1 = o2
  end.

(** The same call, but that a decorated function of two parameters, the
    second named [event], may be registered in its hand-written form. *)
Inductive restyled : Op -> Op -> Prop :=
| restyled_same (o : Op) : restyled o o
| restyled_handler (f : PyFunc) (p : string) (self state : ref) (fs : FromStates)
    (initial : bool) :
    params f = [p; "event"] -> p <> "event" ->
    restyled (OpAddState self state fs (CGen (state_handler f)) initial)
             (OpAddState self state fs (CGen (by_hand f)) initial).

(** The turnstile with one State: made, registered with the handler [h],
    started, and sent a coin and an event it does not know. *)
Definition turnstile_ops (h : Callable) : list Op :=
  [OpNewState "STATE_LOCKED"; OpNewMachine;
   OpAddState 0 0 FromNone h true; OpStart 0;
   OpDispatch 0 (VStr "COIN"); OpDispatch 0 (VStr "KICK")].

(** ** The machine of [pystate.py] under its driver *)





(** ** What only [add_state] changes, and what [start] never leaves *)



(** No State holds a generator none of whose code has run. *)
Definition no_fresh_generator (w : World) : Prop :=
  forall r st g,
    objs w !! r = Some st -> generator st = Some g -> gen_state g <> GenCreated.
(** * Properties *)

(** ** Unfolding computations *)

Ltac munfold :=
  unfold bind, ret, raise, modify, gets, attempt, get_state, get_fsm, deref in *.

Lemma bind_ok {A B : Type} (c : M A) (f : A -> M B) (w w' : World) (a : A) :
  c w = (w', inr a) -> bind c f w = f a w'.
Proof. intros H. unfold bind. now rewrite H. Qed.

Lemma bind_raise {A B : Type} (c : M A) (f : A -> M B) (w w' : World) (e : Exn) :
  c w = (w', inl e) -> bind c f w = (w', inl e).
Proof. intros H. unfold bind. now rewrite H. Qed.

Lemma get_fsm_ok (w : World) (self : ref) (fsm : FiniteStateMachine) :
  fsms w !! self = Some fsm -> get_fsm self w = (w, inr fsm).
Proof. intros H. munfold. now rewrite H. Qed.

Lemma get_state_ok (w : World) (r : ref) (st : State) :
  objs w !! r = Some st -> get_state r w = (w, inr st).
Proof. intros H. munfold. now rewrite H. Qed.

(** ** Membership in [from_states] *)

Lemma py_eqb_state (x : ref) (v : PyVal) : py_eqb (VState x) v = true <-> v = VState x.
Proof.
  destruct v; simpl; try (split; [discriminate | discriminate]).
  rewrite bool_decide_eq_true. split; congruence.
Qed.

Lemma py_in_state (x : ref) (t : list PyVal) :
  py_in (VState x) t = true <-> VState x ∈ t.
Proof.
  unfold py_in. rewrite existsb_exists. split.
  - intros (v & Hin & Heq). apply py_eqb_state in Heq. subst v.
    now apply list_elem_of_In.
  - intros Hin. exists (VState x). split; [now apply list_elem_of_In |].
    now apply py_eqb_state.
Qed.

(** ** [transition_to] *)

Lemma transition_to_allowed (w : World) (self t : ref)
    (fsm : FiniteStateMachine) (target : State) :
  fsms w !! self = Some fsm -> objs w !! t = Some target ->
  py_in (state_val (current_state fsm)) (from_states target) = true ->
  transition_to self (VState t) w = (moved self t fsm w, inr tt).
Proof.
  intros Hf Ht Hin. unfold transition_to.
  rewrite (bind_ok _ _ _ _ _ (get_fsm_ok _ _ _ Hf)).
  rewrite (bind_ok _ _ _ _ _ (get_state_ok _ _ _ Ht)).
  rewrite Hin. simpl. unfold set_current_state.
  now rewrite (bind_ok _ _ _ _ _ (get_fsm_ok _ _ _ Hf)).
Qed.

Lemma transition_to_refused (w : World) (self t x : ref)
    (fsm : FiniteStateMachine) (target cur : State) :
  fsms w !! self = Some fsm -> objs w !! t = Some target ->
  current_state fsm = Some x -> objs w !! x = Some cur ->
  py_in (VState x) (from_states target) = false ->
  transition_to self (VState t) w =
    (w, inl (Exc InvalidStateTransition
               ("Cannot transition from state " +:+ name cur +:+
                " to state " +:+ name target))).
Proof.
  intros Hf Ht Hc Hx Hin. unfold transition_to.
  rewrite (bind_ok _ _ _ _ _ (get_fsm_ok _ _ _ Hf)).
  rewrite (bind_ok _ _ _ _ _ (get_state_ok _ _ _ Ht)).
  rewrite Hc. simpl. rewrite Hin. simpl.
  unfold attr_name.
  erewrite bind_ok; [reflexivity |].
  now rewrite (bind_ok _ _ _ _ _ (get_state_ok _ _ _ Hx)).
Qed.

Lemma current_of_moved (w : World) (self t : ref) (fsm : FiniteStateMachine) :
  fsms w !! self = Some fsm -> current_of self (moved self t fsm w) = Some t.
Proof.
  intros Hf. unfold current_of, moved. simpl.
  rewrite list_lookup_insert_eq; [reflexivity |].
  now apply lookup_lt_Some in Hf.
Qed.

(** C1. On any machine whose current state is the State [x], the call
    [transition_to(y)] for a State [y] returns and leaves [y] as the current
    state exactly when [x] is an entry of [y.from_states]; when it is not,
    the call raises [InvalidStateTransition] and the store, the current state
    with it, is as before the call. *)
Theorem transition_to_iff_allowed (w : World) (self x y : ref)
    (fsm : FiniteStateMachine) (cur target : State) :
  fsms w !! self = Some fsm -> current_state fsm = Some x ->
  objs w !! x = Some cur -> objs w !! y = Some target ->
  let out := transition_to self (VState y) w in
  (out.2 = inr tt /\ current_of self out.1 = Some y <-> VState x ∈ from_states target) /\
  (VState x ∉ from_states target ->
     (exists msg, out.2 = inl (Exc InvalidStateTransition msg)) /\
     out.1 = w /\ current_of self out.1 = Some x).
Proof.
  intros Hf Hc Hx Hy out. subst out.
  destruct (py_in (VState x) (from_states target)) eqn:Hin.
  - assert (Hmem : VState x ∈ from_states target) by now apply py_in_state.
    rewrite (transition_to_allowed w self y fsm target Hf Hy)
      by (rewrite Hc; exact Hin).
    simpl. split.
    + split; [intros _; exact Hmem |].
      intros _. split; [reflexivity | now apply current_of_moved].
    + intros Hn. now destruct Hn.
  - assert (Hmem : VState x ∉ from_states target).
    { intros Hm. apply py_in_state in Hm. congruence. }
    rewrite (transition_to_refused w self y x fsm target cur Hf Hy Hc Hx Hin).
    simpl. split.
    + split; [intros [Hr _]; discriminate | intros Hm; now destruct Hmem].
    + intros _. split; [eauto | split; [reflexivity |]].
      unfold current_of. rewrite Hf. exact Hc.
Qed.

Lemma transition_to_iff_allowed_witness :
  (transition_to 0 (VState Turnstile.STATE_UNLOCKED) Turnstile.started).2 = inr tt.
Proof.
  destruct (transition_to_iff_allowed Turnstile.started 0
              Turnstile.STATE_LOCKED Turnstile.STATE_UNLOCKED _ _ _
              eq_refl eq_refl eq_refl eq_refl) as [Hiff _].
  apply Hiff. vm_compute. apply list_elem_of_here.
Defined.

(** ** The turnstile *)

(** C5. The turnstile of [turnstile_test.py]: after [start] the machine is
    in [STATE_LOCKED], and the events COIN, CUST_PASSED, COIN, COIN,
    CUST_PASSED, CUST_PASSED leave it in UNLOCKED, LOCKED, UNLOCKED, UNLOCKED,
    LOCKED, LOCKED in turn; no call raises. *)
Theorem turnstile_trace :
  let L := Some Turnstile.STATE_LOCKED in
  let U := Some Turnstile.STATE_UNLOCKED in
  let out := Turnstile.main empty_world in
  out.2 = inr [L; U; L; U; U; L; L] /\
  name <$> objs out.1 !! Turnstile.STATE_LOCKED = Some "STATE_LOCKED" /\
  name <$> objs out.1 !! Turnstile.STATE_UNLOCKED = Some "STATE_UNLOCKED".
Proof. vm_compute. repeat split. Qed.

(** ** What handler code leaves alone *)

Lemma transition_to_frame (self : ref) (v : PyVal) (w : World) :
  let w' := (transition_to self v w).1 in
  objs w' = objs w /\ insts w' = insts w /\ stdout w' = stdout w /\
  delivered w' = delivered w /\
  forall m, m <> self -> fsms w' !! m = fsms w !! m.
Proof.
  unfold transition_to, set_current_state, attr_name. munfold.
  repeat (case_match; simplify_eq/=; try done).
  repeat split; try done. intros m Hm. now rewrite list_lookup_insert_ne.
Qed.

Lemma run_frame {A : Type} (p : Prog A) (w : World) :
  objs (run p w).1 = objs w /\ delivered (run p w).1 = delivered w.
Proof.
  revert w. induction p as [a | e | recv t k IH | recv attr k IH | i attr v k IH | line k IH];
    intros w; simpl; try done.
  - destruct recv; try apply IH.
    destruct (transition_to m t w) as [w' r] eqn:E.
    destruct (IH (match r with inl e => Some e | inr _ => None end) w') as [-> ->].
    pose proof (transition_to_frame m t w) as Hfr. rewrite E in Hfr. simpl in Hfr.
    now destruct Hfr as (-> & _ & _ & -> & _).
  - destruct (insts w !! i); [| done].
    match goal with |- context [run k ?w1] => now destruct (IH w1) as [-> ->] end.
  - match goal with |- context [run k ?w1] => now destruct (IH w1) as [-> ->] end.
Qed.

(** ** [add_state] *)

Lemma forallb_isinstance_State (t : list PyVal) :
  forallb isinstance_State t = true <-> Forall (fun v => exists r, v = VState r) t.
Proof.
  rewrite forallb_forall, Forall_forall. split; intros H v Hv.
  - apply list_elem_of_In, H in Hv. destruct v; try discriminate. eauto.
  - apply list_elem_of_In, H in Hv. now destruct Hv as [r ->].
Qed.

Lemma add_state_duplicate_counterexample :
  let w := Turnstile.started in
  is_Some (registry_of 0 w !! "STATE_LOCKED") /\
  name <$> objs w !! Turnstile.STATE_LOCKED = Some "STATE_LOCKED" /\
  add_state 0 Turnstile.STATE_LOCKED FromNone CNone false w = (w, inl (Exc ValueError "")).
Proof.
  intros w. split; [vm_compute; eauto | split; [vm_compute; reflexivity |]].
  reflexivity.
Qed.

(** C8, amended. A call of [add_state] that raises leaves the whole store
    (the registry, [initial_state] and [current_state] with it) as it was.
    It raises [KeyError] ("State already exists in FSM.") when the name of
    the state is a key of the registry and the two checks made before that
    one pass: the state is initial or has at least one entry in
    [from_states], and every entry is a State. *)
Theorem add_state_failure_and_duplicate (w : World) (self state : ref)
    (fs : FromStates) (h : Callable) (initial : bool) :
  (forall e, (add_state self state fs h initial w).2 = inl e ->
             (add_state self state fs h initial w).1 = w) /\
  (forall fsm st,
     fsms w !! self = Some fsm -> objs w !! state = Some st ->
     is_Some (states fsm !! name st) ->
     initial = true \/ from_states_tuple fs <> [] ->
     Forall (fun v => exists r, v = VState r) (from_states_tuple fs) ->
     add_state self state fs h initial w =
       (w, inl (Exc KeyError "State already exists in FSM."))).
Proof.
  split.
  - intros e. unfold add_state, attr_name. munfold.
    repeat (case_match; simplify_eq/=; try done).
  - intros fsm st Hf Hs Hdup Hne Hall. unfold add_state.
    assert (negb initial && negb (1 <=? length (from_states_tuple fs))%nat = false) as ->.
    { destruct Hne as [-> | Hne]; [reflexivity |].
      destruct (from_states_tuple fs); [done |]. simpl. now rewrite andb_false_r. }
    apply forallb_isinstance_State in Hall. rewrite Hall. simpl.
    rewrite (bind_ok _ _ _ _ _ (get_fsm_ok _ _ _ Hf)).
    rewrite (bind_ok _ _ _ _ _ (get_state_ok _ _ _ Hs)).
    now rewrite bool_decide_eq_true_2.
Qed.

Lemma add_state_failure_and_duplicate_witness :
  let w := Turnstile.started in
  add_state 0 Turnstile.STATE_LOCKED (FromState Turnstile.STATE_UNLOCKED) CNone false w =
    (w, inl (Exc KeyError "State already exists in FSM.")).
Proof.
  intros w.
  refine (proj2 (add_state_failure_and_duplicate w 0 Turnstile.STATE_LOCKED
                   (FromState Turnstile.STATE_UNLOCKED) CNone false) _ _ eq_refl eq_refl _ _ _).
  - vm_compute. eauto.
  - right. discriminate.
  - repeat constructor. eauto.
Defined.

(** ** [dispatch_event] *)

Lemma set_generator_ok (w : World) (state : ref) (st : State) (g : option Generator) :
  objs w !! state = Some st ->
  set_generator state g w = (set_objs (<[state := with_generator g st]>) w, inr tt).
Proof.
  intros H. unfold set_generator.
  now rewrite (bind_ok _ _ _ _ _ (get_state_ok _ _ _ H)).
Qed.

(** The store after the generator of [state] ran to [res]. *)
Lemma park_ok (w : World) (state : ref) (st : State) (b : GenBody)
    (res : Exn + option Frame) :
  objs w !! state = Some st ->
  park state b res w =
    (set_objs (<[state := with_generator
                   (Some {| gen_body := b; gen_state := gen_state_after res |}) st]>) w,
     send_outcome res).
Proof.
  intros H. unfold park.
  destruct res as [e | [fr |]]; simpl.
  - now rewrite (bind_ok _ _ _ _ _ (set_generator_ok _ _ _ _ H)).
  - now apply set_generator_ok.
  - now rewrite (bind_ok _ _ _ _ _ (set_generator_ok _ _ _ _ H)).
Qed.


Lemma target_of_inv (w : World) (self state : ref) :
  target_of self w = Some state ->
  exists fsm c st, fsms w !! self = Some fsm /\ current_state fsm = Some c /\
                   objs w !! c = Some st /\ states fsm !! name st = Some state.
Proof.
  unfold target_of. intros H.
  destruct (fsms w !! self) as [fsm |] eqn:Hf; [| done]. simpl in H.
  destruct (current_state fsm) as [c |] eqn:Hc; [| done]. simpl in H.
  destruct (objs w !! c) as [st |] eqn:Hs; [| done]. simpl in H. eauto 10.
Qed.

(** A dispatch is a [send] to the generator of its target. *)
Lemma dispatch_event_target (w : World) (self state : ref) (event : PyVal) :
  target_of self w = Some state ->
  dispatch_event self event w = gen_send state event w.
Proof.
  intros H. apply target_of_inv in H as (fsm & c & st & Hf & Hc & Hs & Hr).
  unfold dispatch_event.
  rewrite (bind_ok _ _ _ _ _ (get_fsm_ok _ _ _ Hf)).
  rewrite Hc. unfold attr_name.
  erewrite bind_ok; [| now rewrite (bind_ok _ _ _ _ _ (get_state_ok _ _ _ Hs))].
  now rewrite Hr.
Qed.










(** The handlers of [callable_test.py] keep their data from one dispatch to
    the next: the flag of [StateA] and the counter of [state_b_handler]. *)
Example callable_test_output :
  let out := CallableTest.main empty_world in
  stdout out.1 = ["foo=True"; "bar=1"; "foo=False"; "foo=True"; "bar=2"] /\
  out.2 = inl (Exc FsmExit "").
Proof. vm_compute. split; reflexivity. Qed.







(** ** [start] *)

Lemma start_unfold (self : ref) :
  start self =
    (let* fsm := get_fsm self in
     match initial_state fsm with
     | None => raise (Exc RuntimeError "No initial state set on the state machine.")
     | Some i =>
         set_current_state self (Some i) >>
         for_each (map_to_list (states fsm)).*2 (prime self)
     end).
Proof. reflexivity. Qed.


Lemma primes_to_with_generator (self : ref) (g : option Generator) (st : State)
    (b : GenBody) (fr : Frame) :
  primes_to self (with_generator g st) b fr <-> primes_to self st b fr.
Proof. reflexivity. Qed.

Lemma primes_to_unique (self : ref) (st : State) (b b' : GenBody) (fr fr' : Frame) :
  primes_to self st b fr -> primes_to self st b' fr' -> b = b' /\ fr = fr'.
Proof.
  intros [Hb Hfr] [Hb' Hfr']. rewrite Hb in Hb'. injection Hb' as <-.
  specialize (Hfr empty_world). rewrite Hfr' in Hfr. now injection Hfr as <-.
Qed.

(** One turn of the loop: the State gets its generator, parked. *)
Lemma prime_ok (self state : ref) (w : World) (st : State) (b : GenBody) (fr : Frame) :
  objs w !! state = Some st -> primes_to self st b fr ->
  prime self state w = (set_objs (<[state := primed b fr st]>) w, inr tt).
Proof.
  intros Hs [Hb Hfr]. unfold prime.
  rewrite (bind_ok _ _ _ _ _ (get_state_ok _ _ _ Hs)). rewrite Hb.
  rewrite (bind_ok _ _ _ _ _ (set_generator_ok _ _ _ _ Hs)).
  set (w1 := set_objs _ w).
  assert (Hs1 : objs w1 !! state =
                Some (with_generator (Some {| gen_body := b; gen_state := GenCreated |}) st)).
  { subst w1. simpl. apply list_lookup_insert_eq. now apply lookup_lt_Some in Hs. }
  unfold gen_send.
  rewrite (bind_ok _ _ _ _ _ (get_state_ok _ _ _ Hs1)). simpl.
  unfold bind at 1. unfold attempt. rewrite Hfr.
  rewrite (park_ok _ _ _ _ _ Hs1). simpl.
  subst w1. unfold set_objs, primed. simpl. now rewrite list_insert_insert_eq.
Qed.

(** The loop of [start] over the states [l], all with handlers that prime. *)
Lemma prime_all_ok (self : ref) (l : list ref) (w : World) :
  (forall r, r ∈ l -> exists st b fr, objs w !! r = Some st /\ primes_to self st b fr) ->
  exists w',
    for_each l (prime self) w = (w', inr tt) /\
    fsms w' = fsms w /\ insts w' = insts w /\ stdout w' = stdout w /\
    delivered w' = delivered w /\
    (forall r, r ∉ l -> objs w' !! r = objs w !! r) /\
    (forall r st b fr, r ∈ l -> objs w !! r = Some st -> primes_to self st b fr ->
       objs w' !! r = Some (primed b fr st)).
Proof.
  revert w. induction l as [| r l IH]; intros w Hall.
  - exists w. simpl. repeat split; try done. intros r st b fr Hr. now apply elem_of_nil in Hr.
  - destruct (Hall r) as (st & b & fr & Hs & Hp); [apply list_elem_of_here |].
    pose proof (prime_ok self r w st b fr Hs Hp) as Hstep.
    set (w1 := set_objs (<[r := primed b fr st]>) w) in *.
    assert (Hlen : r < length (objs w)) by now apply lookup_lt_Some in Hs.
    assert (Hl1 : forall r', objs w1 !! r' =
                    if decide (r = r') then Some (primed b fr st) else objs w !! r').
    { intros r'. subst w1. simpl. destruct (decide (r = r')) as [<- | Hne].
      - now apply list_lookup_insert_eq.
      - now apply list_lookup_insert_ne. }
    destruct (IH w1) as (w' & Hrun & Hf & Hi & Ho & Hd & Hout & Hin).
    { intros r' Hr'. rewrite Hl1. destruct (decide (r = r')) as [<- | Hne].
      - exists (primed b fr st), b, fr. split; [done |]. now apply primes_to_with_generator.
      - apply Hall. now apply list_elem_of_further. }
    exists w'. simpl. rewrite (bind_ok _ _ _ _ _ Hstep).
    split; [exact Hrun |]. repeat split; try done.
    + intros r' Hr'. apply not_elem_of_cons in Hr' as [Hne Hr'].
      rewrite (Hout r' Hr'), Hl1. destruct (decide (r = r')); [congruence | done].
    + intros r' st' b' fr' Hr' Hs' Hp'.
      destruct (decide (r' ∈ l)) as [Hmem | Hnot].
      * destruct (decide (r = r')) as [<- | Hne].
        -- rewrite Hs in Hs'. injection Hs' as <-.
           destruct (primes_to_unique _ _ _ _ _ _ Hp Hp') as [<- <-].
           rewrite (Hin r (primed b fr st) b fr Hmem); [done | | done].
           rewrite Hl1. now destruct (decide (r = r)).
        -- apply (Hin r' st' b' fr' Hmem); [| done].
           rewrite Hl1. now destruct (decide (r = r')).
      * apply elem_of_cons in Hr' as [-> | Hr']; [| done].
        rewrite (Hout r Hnot), Hl1. destruct (decide (r = r)); [| done].
        rewrite Hs in Hs'. injection Hs' as <-.
        now destruct (primes_to_unique _ _ _ _ _ _ Hp Hp') as [<- <-].
Qed.

Lemma elem_of_registry_values (fsm : FiniteStateMachine) (r : ref) :
  r ∈ (map_to_list (states fsm)).*2 <-> exists n, states fsm !! n = Some r.
Proof.
  rewrite list_elem_of_fmap. split.
  - intros ([n r'] & -> & Hin). exists n. now apply elem_of_map_to_list in Hin.
  - intros [n Hn]. exists (n, r). split; [done |]. now apply elem_of_map_to_list.
Qed.

(** [start] on a machine with an initial state and handlers that prime. *)
Lemma start_ok (w : World) (self i : ref) (fsm : FiniteStateMachine) :
  fsms w !! self = Some fsm -> initial_state fsm = Some i ->
  handlers_prime self fsm w ->
  exists w',
    start self w = (w', inr tt) /\
    fsms w' = <[self := with_current_state (Some i) fsm]> (fsms w) /\
    insts w' = insts w /\ stdout w' = stdout w /\ delivered w' = delivered w /\
    (forall r, (forall n, states fsm !! n <> Some r) -> objs w' !! r = objs w !! r) /\
    (forall n r st b fr, states fsm !! n = Some r -> objs w !! r = Some st ->
       primes_to self st b fr -> objs w' !! r = Some (primed b fr st)).
Proof.
  intros Hf Hi Hall. rewrite start_unfold.
  rewrite (bind_ok _ _ _ _ _ (get_fsm_ok _ _ _ Hf)). rewrite Hi.
  unfold set_current_state.
  rewrite (bind_ok _ _ _ _ _ (bind_ok _ _ _ _ _ (get_fsm_ok _ _ _ Hf))).
  unfold modify.
  destruct (prime_all_ok self (map_to_list (states fsm)).*2
              (set_fsms (<[self := with_current_state (Some i) fsm]>) w))
    as (w' & Hrun & Hf' & Hi' & Ho' & Hd' & Hout & Hin).
  { intros r Hr. apply elem_of_registry_values in Hr as [n Hn]. exact (Hall n r Hn). }
  exists w'. split; [exact Hrun |]. repeat split; try done.
  - intros r Hr. apply Hout. intros Hmem.
    apply elem_of_registry_values in Hmem as [n Hn]. now apply (Hr n).
  - intros n r st b fr Hn Hs Hp. apply (Hin r st b fr); [| done | done].
    apply elem_of_registry_values. eauto.
Qed.

Lemma current_of_insert (w w' : World) (self : ref) (c : option ref)
    (fsm : FiniteStateMachine) :
  fsms w !! self = Some fsm ->
  fsms w' = <[self := with_current_state c fsm]> (fsms w) ->
  current_of self w' = c /\ initial_of self w' = initial_state fsm.
Proof.
  intros Hf Hw. unfold current_of, initial_of. rewrite Hw.
  rewrite list_lookup_insert_eq by now apply lookup_lt_Some in Hf. done.
Qed.


Lemma turnstile_built_fsm :
  fsms turnstile_built !! 0 =
    Some {| initial_state := Some Turnstile.STATE_LOCKED;
            current_state := Some Turnstile.STATE_LOCKED;
            states := <["STATE_UNLOCKED" := Turnstile.STATE_UNLOCKED]>
                        (<["STATE_LOCKED" := Turnstile.STATE_LOCKED]> ∅) |}.
Proof. vm_compute. reflexivity. Qed.



(** ** A second [start] *)







(** The counter of state B, 1 before the second [start], is 0 after it. *)
Example restart_resets_counter :
  (snd <$> parked_at CallableTest.STATE_B callable_running) ≫= (.!! "bar") =
    Some (VInt 1) /\
  (snd <$> parked_at CallableTest.STATE_B (start 0 callable_running).1) ≫= (.!! "bar") =
    Some (VInt 0).
Proof. vm_compute. split; reflexivity. Qed.

(** ** The current state stays in the registry *)

(** A dispatch on a machine whose current state has a name that is no key
    of the registry raises [KeyError] with that name and changes nothing. *)
Lemma dispatch_event_unregistered (w : World) (self c : ref) (event : PyVal)
    (fsm : FiniteStateMachine) (st : State) :
  fsms w !! self = Some fsm -> current_state fsm = Some c ->
  objs w !! c = Some st -> states fsm !! name st = None ->
  dispatch_event self event w = (w, inl (Exc KeyError (name st))).
Proof.
  intros Hf Hc Hs Hn. unfold dispatch_event.
  rewrite (bind_ok _ _ _ _ _ (get_fsm_ok _ _ _ Hf)).
  rewrite Hc. unfold attr_name.
  erewrite bind_ok; [| now rewrite (bind_ok _ _ _ _ _ (get_state_ok _ _ _ Hs))].
  now rewrite Hn.
Qed.

Lemma shared_machine :
  let w := (Shared.main empty_world).1 in
  (fun fsm => (current_state fsm, states fsm !! "Y")) <$> fsms w !! 0 =
    Some (Some Shared.Y, None) /\
  name <$> objs w !! Shared.Y = Some "Y".
Proof. vm_compute. split; reflexivity. Qed.

Lemma current_leaves_registry_counterexample :
  let out := Shared.main empty_world in
  out.2 = inr tt /\
  current_of 0 out.1 = Some Shared.Y /\
  name <$> objs out.1 !! Shared.Y = Some "Y" /\
  registry_of 0 out.1 !! "Y" = None /\
  dispatch_event 0 (VStr "GO") out.1 = (out.1, inl (Exc KeyError "Y")).
Proof.
  intros out. destruct shared_machine as [Hm Hy]. fold out in Hm, Hy.
  split; [vm_compute; reflexivity |]. split; [vm_compute; reflexivity |].
  split; [exact Hy |]. split; [vm_compute; reflexivity |].
  destruct (fsms out.1 !! 0) as [fsm |] eqn:Hf; [| discriminate].
  destruct (objs out.1 !! Shared.Y) as [st |] eqn:Hs; [| discriminate].
  simpl in Hm, Hy. injection Hm as Hc Hn. injection Hy as Hname.
  rewrite <- Hname in Hn |- *.
  now apply (dispatch_event_unregistered out.1 0 Shared.Y _ fsm st).
Qed.











(** What a call of [transition_to] does to the store: nothing, or the move. *)
Lemma transition_to_cases (m : ref) (v : PyVal) (w : World) :
  (transition_to m v w).1 = w \/
  exists t fsm target,
    v = VState t /\ fsms w !! m = Some fsm /\ objs w !! t = Some target /\
    py_in (state_val (current_state fsm)) (from_states target) = true /\
    (transition_to m v w).1 = moved m t fsm w.
Proof.
  destruct v as [| | | | t | |]; try (now left).
  destruct (fsms w !! m) as [fsm |] eqn:Hf; [| left; unfold transition_to; munfold; now rewrite Hf].
  destruct (objs w !! t) as [target |] eqn:Ht;
    [| left; unfold transition_to; munfold; now rewrite Hf, Ht].
  destruct (py_in (state_val (current_state fsm)) (from_states target)) eqn:Hin.
  - right. exists t, fsm, target. repeat split; try done.
    now rewrite (transition_to_allowed w m t fsm target Hf Ht Hin).
  - left. unfold transition_to, attr_name. munfold. rewrite Hf, Ht, Hin. simpl.
    destruct (current_state fsm) as [c |]; [| done]. now destruct (objs w !! c).
Qed.











(** What a call of [add_state] does to the store: nothing, or the
    registration of a State under a name that was free. *)
Lemma add_state_cases (self state : ref) (fs : FromStates) (h : Callable)
    (initial : bool) (w : World) :
  (add_state self state fs h initial w).1 = w \/
  exists fsm st,
    fsms w !! self = Some fsm /\ objs w !! state = Some st /\
    states fsm !! name st = None /\
    (add_state self state fs h initial w).1 =
      added self state (name st) (from_states_tuple fs) h initial w.
Proof.
  unfold add_state, attr_name, added. munfold.
  destruct (negb initial && negb (1 <=? length (from_states_tuple fs))%nat); [now left |].
  destruct (negb (forallb isinstance_State (from_states_tuple fs))); [now left |].
  destruct (fsms w !! self) as [fsm |] eqn:Hf; [| now left].
  destruct (objs w !! state) as [st |] eqn:Hs; [| now left].
  destruct (states fsm !! name st) as [r |] eqn:Hn.
  { rewrite bool_decide_eq_true_2 by eauto. now left. }
  rewrite bool_decide_eq_false_2 by (intros [? ?]; done).
  destruct initial; simpl.
  - destruct (initial_state fsm) as [i |] eqn:Hi.
    + rewrite bool_decide_eq_true_2 by eauto. left. now destruct (objs w !! i).
    + rewrite bool_decide_eq_false_2 by (intros [? ?]; done).
      right. now exists fsm, st.
  - right. now exists fsm, st.
Qed.

Lemma added_objs (self state : ref) (n : string) (t : list PyVal) (h : Callable)
    (initial : bool) (w : World) (r : ref) :
  objs (added self state n t h initial w) !! r =
    if decide (state = r) then configure t h <$> objs w !! r else objs w !! r.
Proof.
  unfold added. destruct initial; simpl.
  - destruct (decide (state = r)) as [<- | Hne];
      [apply list_lookup_alter_eq | now apply list_lookup_alter_ne].
  - destruct (decide (state = r)) as [<- | Hne];
      [apply list_lookup_alter_eq | now apply list_lookup_alter_ne].
Qed.

Lemma added_fsm (self state : ref) (n : string) (t : list PyVal) (h : Callable)
    (initial : bool) (w : World) (fsm : FiniteStateMachine) :
  fsms w !! self = Some fsm ->
  fsms (added self state n t h initial w) !! self =
    Some {| initial_state := if initial then Some state else initial_state fsm;
            current_state := if initial then Some state else current_state fsm;
            states := <[n := state]> (states fsm) |}.
Proof.
  intros Hf. unfold added. destruct initial; simpl.
  - rewrite !list_lookup_alter_eq, Hf. reflexivity.
  - rewrite list_lookup_alter_eq, Hf. reflexivity.
Qed.









(** ** The decorated and the hand-written handler *)

Lemma decorated_differs_counterexample :
  let decorated := one_state (CGen (state_handler note_fn)) empty_world in
  let written := one_state (CGen (by_hand note_fn)) empty_world in
  decorated.2 = inl (Exc TypeError "unexpected keyword argument") /\
  stdout decorated.1 = [] /\
  written.2 = inr tt /\
  stdout written.1 = ["got PING"].
Proof. vm_compute. repeat split. Qed.

(** A call with the event as keyword binds what the call with the event in
    second place binds, when the second parameter is named [event]. *)
Lemma bind_args_event (p : string) (fsm event : PyVal) :
  p <> "event" ->
  bind_args [p; "event"] [fsm] [("event", event)] =
  bind_args [p; "event"] [fsm; event] [].
Proof.
  intros Hp. unfold bind_args. simpl.
  rewrite bool_decide_eq_true_2 by (apply list_elem_of_further, list_elem_of_here).
  rewrite bool_decide_eq_true_2
    by (rewrite lookup_insert_ne by done; apply lookup_empty).
  reflexivity.
Qed.

Lemma decorated_same_as_written (f : PyFunc) (p : string) :
  params f = [p; "event"] -> p <> "event" ->
  same_handler (CGen (state_handler f)) (CGen (by_hand f)).
Proof.
  intros Hf Hp m. simpl. unfold state_handler. f_equal. f_equal.
  extensionality fr. extensionality event.
  unfold call. now rewrite Hf, (bind_args_event p (VFsm m) event Hp).
Qed.

(** *** Stores that differ in handlers at most *)

Lemma same_handler_refl (h : Callable) : same_handler h h.
Proof. now intros m. Qed.

Lemma same_state_refl (st : State) : same_state st st.
Proof. repeat split. Qed.

Lemma same_world_refl (w : World) : same_world w w.
Proof.
  repeat split. apply Forall2_same_length_lookup. split; [done |].
  intros i x y Hx Hy. rewrite Hx in Hy. injection Hy as <-. apply same_state_refl.
Qed.

Lemma same_world_lookup (w1 w2 : World) (r : ref) :
  same_world w1 w2 ->
  match objs w1 !! r, objs w2 !! r with
  | Some st1, Some st2 => same_state st1 st2
  | None, None => True
  | _, _ => False
  end.
Proof.
  intros (_ & _ & _ & _ & Hobjs).
  destruct (objs w1 !! r) as [st1 |] eqn:H1.
  - destruct (Forall2_lookup_l _ _ _ _ _ Hobjs H1) as (st2 & -> & Hst). exact Hst.
  - apply lookup_ge_None in H1. rewrite (Forall2_length _ _ _ Hobjs) in H1.
    apply lookup_ge_None in H1. now rewrite H1.
Qed.

Lemma same_run_bind {A B : Type} (R : A -> A -> Prop) (R' : B -> B -> Prop)
    (c1 c2 : M A) (f1 f2 : A -> M B) :
  same_run R c1 c2 -> (forall a1 a2, R a1 a2 -> same_run R' (f1 a1) (f2 a2)) ->
  same_run R' (bind c1 f1) (bind c2 f2).
Proof.
  intros Hc Hf w1 w2 Hw. unfold bind.
  destruct (Hc w1 w2 Hw) as [Hw' Hr].
  destruct (c1 w1) as [w1' [e1 | a1]], (c2 w2) as [w2' [e2 | a2]]; simpl in *; try done.
  now apply Hf.
Qed.

Lemma same_run_ret {A : Type} (R : A -> A -> Prop) (a1 a2 : A) :
  R a1 a2 -> same_run R (ret a1) (ret a2).
Proof. now intros Ha w1 w2 Hw. Qed.

Lemma same_run_raise {A : Type} (R : A -> A -> Prop) (e : Exn) :
  same_run R (raise e) (raise e).
Proof. now intros w1 w2 Hw. Qed.

Lemma same_run_get_state (r : ref) : same_run same_state (get_state r) (get_state r).
Proof.
  intros w1 w2 Hw. pose proof (same_world_lookup w1 w2 r Hw) as Hl. munfold.
  now destruct (objs w1 !! r), (objs w2 !! r).
Qed.

Lemma same_run_get_fsm (m : ref) : same_run eq (get_fsm m) (get_fsm m).
Proof.
  intros w1 w2 Hw. munfold. pose proof Hw as (Hf & Hrest). rewrite <- Hf.
  now destruct (fsms w1 !! m).
Qed.

Lemma same_run_set_fsms (f : list FiniteStateMachine -> list FiniteStateMachine) :
  same_run eq (modify (set_fsms f)) (modify (set_fsms f)).
Proof.
  intros w1 w2 (Hf & Hi & Ho & Hd & Hobjs).
  repeat split; try done. simpl. now rewrite Hf.
Qed.

Lemma same_run_set_delivered (f : list (ref * PyVal) -> list (ref * PyVal)) :
  same_run eq (modify (set_delivered f)) (modify (set_delivered f)).
Proof.
  intros w1 w2 (Hf & Hi & Ho & Hd & Hobjs).
  repeat split; try done. simpl. now rewrite Hd.
Qed.

Lemma same_run_attr_name (o : option ref) : same_run eq (attr_name o) (attr_name o).
Proof.
  unfold attr_name. destruct o as [r |]; [| apply same_run_raise].
  eapply same_run_bind; [apply same_run_get_state |].
  intros st1 st2 (Hn & _). rewrite Hn. now apply same_run_ret.
Qed.

Lemma same_run_transition_to (m : ref) (v : PyVal) :
  same_run eq (transition_to m v) (transition_to m v).
Proof.
  unfold transition_to. destruct v; try apply same_run_raise.
  eapply same_run_bind; [apply same_run_get_fsm |]. intros fsm ? <-.
  eapply same_run_bind; [apply same_run_get_state |].
  intros st1 st2 (Hn & Hfs & _). rewrite Hfs, Hn.
  destruct (negb (py_in (state_val (current_state fsm)) (from_states st2))).
  - eapply same_run_bind; [apply same_run_attr_name |]. intros n ? <-.
    apply same_run_raise.
  - unfold set_current_state.
    eapply same_run_bind; [apply same_run_get_fsm |]. intros fsm' ? <-.
    apply same_run_set_fsms.
Qed.

Lemma same_world_getattr (w1 w2 : World) (recv : PyVal) (attr : string) :
  same_world w1 w2 -> py_getattr recv attr w1 = py_getattr recv attr w2.
Proof.
  intros Hw. pose proof Hw as (Hf & Hi & _).
  unfold py_getattr. destruct recv as [| | | | r | m | i]; try done.
  - pose proof (same_world_lookup w1 w2 r Hw) as Hl.
    destruct (objs w1 !! r) as [st1 |], (objs w2 !! r) as [st2 |]; try done.
    destruct Hl as (Hn & _). now rewrite Hn.
  - now rewrite Hf.
  - now rewrite Hi.
Qed.

Lemma same_run_run {A : Type} (p : Prog A) : same_run eq (run p) (run p).
Proof.
  induction p as [a | e | recv t k IH | recv attr k IH | i attr v k IH | line k IH];
    intros w1 w2 Hw; simpl.
  - done.
  - done.
  - destruct recv; try now apply IH.
    destruct (same_run_transition_to m t w1 w2 Hw) as [Hw' Hr].
    destruct (transition_to m t w1) as [w1' r1], (transition_to m t w2) as [w2' r2].
    simpl in *. destruct r1 as [e1 | []], r2 as [e2 | []]; try done.
    + unfold same_outcome in Hr. rewrite Hr. now apply IH.
    + now apply IH.
  - rewrite (same_world_getattr w1 w2 recv attr Hw). now apply IH.
  - pose proof Hw as (Hf & Hi & Ho & Hd & Hobjs). rewrite <- Hi.
    destruct (insts w1 !! i); [| done].
    apply IH. repeat split; try done. simpl. now rewrite Hi.
  - pose proof Hw as (Hf & Hi & Ho & Hd & Hobjs).
    apply IH. repeat split; try done. simpl. now rewrite Ho.
Qed.

(** ** What no call undoes *)

Lemma later_refl (w : World) : later w w.
Proof. repeat split; try done; eauto. Qed.

Lemma later_trans (w1 w2 w3 : World) : later w1 w2 -> later w2 w3 -> later w1 w3.
Proof.
  intros (Ho & Hf & Hi & Hs & Hd) (Ho' & Hf' & Hi' & Hs' & Hd').
  split; [| split; [| split; [| split]]].
  - intros r st Hr. destruct (Ho r st Hr) as (st' & Hr' & Hn).
    destruct (Ho' r st' Hr') as (st'' & Hr'' & Hn'). exists st''. split; congruence.
  - intros m fsm Hm. destruct (Hf m fsm Hm) as (fsm' & Hm' & Hini & Hreg).
    destruct (Hf' m fsm' Hm') as (fsm'' & Hm'' & Hini' & Hreg').
    exists fsm''. split; [done |]. split; eauto.
  - eauto.
  - now transitivity (stdout w2).
  - now transitivity (delivered w2).
Qed.

Lemma monotone_bind {A B : Type} (c : M A) (f : A -> M B) :
  monotone c -> (forall a, monotone (f a)) -> monotone (bind c f).
Proof.
  intros Hc Hf w. unfold bind. specialize (Hc w).
  destruct (c w) as [w' [e | a]]; simpl in *; [done |].
  apply (later_trans _ w'); [done | apply Hf].
Qed.

Lemma monotone_pure {A : Type} (c : M A) : (forall w, (c w).1 = w) -> monotone c.
Proof. intros H w. rewrite H. apply later_refl. Qed.

Lemma monotone_get_state (r : ref) : monotone (get_state r).
Proof. apply monotone_pure. intros w. munfold. now destruct (objs w !! r). Qed.

Lemma monotone_get_fsm (m : ref) : monotone (get_fsm m).
Proof. apply monotone_pure. intros w. munfold. now destruct (fsms w !! m). Qed.

Lemma monotone_attempt {A : Type} (c : M A) : monotone c -> monotone (attempt c).
Proof. intros Hc w. unfold attempt. specialize (Hc w). now destruct (c w). Qed.

Lemma monotone_for_each {A : Type} (l : list A) (f : A -> M unit) :
  (forall a, monotone (f a)) -> monotone (for_each l f).
Proof.
  intros Hf. induction l as [| a l IH]; simpl; [now apply monotone_pure |].
  apply monotone_bind; [apply Hf | intros _; apply IH].
Qed.

(** A store whose States and machines are as before is a later store. *)
Lemma later_same (w w' : World) :
  objs w' = objs w -> fsms w' = fsms w ->
  (forall i, is_Some (insts w !! i) -> is_Some (insts w' !! i)) ->
  stdout w `prefix_of` stdout w' -> delivered w `prefix_of` delivered w' ->
  later w w'.
Proof.
  intros Ho Hf Hi Hs Hd. repeat split; try done.
  - intros r st Hr. exists st. now rewrite Ho.
  - intros m fsm Hm. exists fsm. now rewrite Hf.
Qed.

(** A machine replaced by one with the same initial state and registry. *)
Lemma later_set_fsm (w : World) (m : ref) (fsm fsm' : FiniteStateMachine) :
  fsms w !! m = Some fsm ->
  (forall i, initial_state fsm = Some i -> initial_state fsm' = Some i) ->
  (forall n r, states fsm !! n = Some r -> states fsm' !! n = Some r) ->
  later w (set_fsms (<[m := fsm']>) w).
Proof.
  intros Hm Hini Hreg. repeat split; try done; simpl.
  - eauto.
  - intros m0 fsm0 Hm0. destruct (decide (m = m0)) as [<- | Hne].
    + rewrite list_lookup_insert_eq by now apply lookup_lt_Some in Hm.
      rewrite Hm in Hm0. injection Hm0 as <-. eauto.
    + rewrite list_lookup_insert_ne by done. eauto.
Qed.

(** A State replaced by one of the same name. *)
Lemma later_set_state (w : World) (r : ref) (st st' : State) :
  objs w !! r = Some st -> name st' = name st ->
  later w (set_objs (<[r := st']>) w).
Proof.
  intros Hr Hn. repeat split; try done; simpl; [| eauto].
  intros r0 st0 Hr0. destruct (decide (r = r0)) as [<- | Hne].
  - rewrite list_lookup_insert_eq by now apply lookup_lt_Some in Hr.
    rewrite Hr in Hr0. injection Hr0 as <-. eauto.
  - rewrite list_lookup_insert_ne by done. eauto.
Qed.

Lemma monotone_set_current_state (m : ref) (c : option ref) :
  monotone (set_current_state m c).
Proof.
  intros w. unfold set_current_state. munfold.
  destruct (fsms w !! m) as [fsm |] eqn:Hm; [| apply later_refl].
  now apply (later_set_fsm w m fsm).
Qed.

Lemma monotone_set_generator (r : ref) (g : option Generator) :
  monotone (set_generator r g).
Proof.
  intros w. unfold set_generator. munfold.
  destruct (objs w !! r) as [st |] eqn:Hr; [| apply later_refl].
  now apply (later_set_state w r st).
Qed.

Lemma monotone_transition_to (m : ref) (v : PyVal) : monotone (transition_to m v).
Proof.
  unfold transition_to. destruct v; try (now apply monotone_pure).
  apply monotone_bind; [apply monotone_get_fsm |]. intros fsm.
  apply monotone_bind; [apply monotone_get_state |]. intros st.
  destruct (negb _); [| apply monotone_set_current_state].
  apply monotone_bind; [| intros n; now apply monotone_pure].
  unfold attr_name. destruct (current_state fsm); [| now apply monotone_pure].
  apply monotone_bind; [apply monotone_get_state | intros ?; now apply monotone_pure].
Qed.

Lemma monotone_run {A : Type} (p : Prog A) : monotone (run p).
Proof.
  induction p as [a | e | recv t k IH | recv attr k IH | i attr v k IH | line k IH];
    intros w; simpl; try apply later_refl.
  - destruct recv; try apply IH.
    pose proof (monotone_transition_to m t w) as Ht.
    destruct (transition_to m t w) as [w' r]. simpl in Ht.
    apply (later_trans _ w'); [done | apply IH].
  - apply IH.
  - destruct (insts w !! i) as [d |] eqn:Hi; [| apply later_refl].
    eapply later_trans; [| apply IH].
    apply later_same; try done. intros j Hj. simpl.
    destruct (decide (i = j)) as [<- | Hne].
    + rewrite list_lookup_insert_eq by now apply lookup_lt_Some in Hi. eauto.
    + now rewrite list_lookup_insert_ne.
  - eapply later_trans; [| apply IH].
    apply later_same; try done. simpl. now apply prefix_app_r.
Qed.

Lemma monotone_park (state : ref) (b : GenBody) (res : Exn + option Frame) :
  monotone (park state b res).
Proof.
  destruct res as [e | [fr |]]; simpl.
  - apply monotone_bind; [apply monotone_set_generator | intros _; now apply monotone_pure].
  - apply monotone_set_generator.
  - apply monotone_bind; [apply monotone_set_generator | intros _; now apply monotone_pure].
Qed.

Lemma monotone_gen_send (state : ref) (v : PyVal) : monotone (gen_send state v).
Proof.
  unfold gen_send.
  apply monotone_bind; [apply monotone_get_state |]. intros st.
  destruct (generator st) as [g |]; [| now apply monotone_pure].
  destruct (gen_state g) as [| fr |]; [| | now apply monotone_pure].
  - destruct (py_eqb v VNone); [| now apply monotone_pure].
    apply monotone_bind; [apply monotone_attempt, monotone_run |].
    intros res. apply monotone_park.
  - apply monotone_bind.
    + intros w. apply later_same; try done. simpl. now apply prefix_app_r.
    + intros _. apply monotone_bind; [apply monotone_attempt, monotone_run |].
      intros res. apply monotone_park.
Qed.

Lemma monotone_dispatch_event (m : ref) (event : PyVal) :
  monotone (dispatch_event m event).
Proof.
  unfold dispatch_event.
  apply monotone_bind; [apply monotone_get_fsm |]. intros fsm.
  apply monotone_bind.
  - unfold attr_name. destruct (current_state fsm); [| now apply monotone_pure].
    apply monotone_bind; [apply monotone_get_state | intros ?; now apply monotone_pure].
  - intros n. destruct (states fsm !! n); [apply monotone_gen_send |].
    now apply monotone_pure.
Qed.

Lemma monotone_start (m : ref) : monotone (start m).
Proof.
  rewrite start_unfold.
  apply monotone_bind; [apply monotone_get_fsm |]. intros fsm.
  destruct (initial_state fsm); [| now apply monotone_pure].
  apply monotone_bind; [apply monotone_set_current_state |]. intros _.
  apply monotone_for_each. intros state. unfold prime.
  apply monotone_bind; [apply monotone_get_state |]. intros st.
  destruct (call_handler (handler_func st) m); [now apply monotone_pure |].
  apply monotone_bind; [apply monotone_set_generator |].
  intros _. apply monotone_gen_send.
Qed.

(** ** [add_state], in full *)

(** A call of [add_state] raises and leaves the store, or passes its four
    checks and registers the State. *)
Lemma add_state_outcome (self state : ref) (fs : FromStates) (h : Callable)
    (initial : bool) (w : World) :
  (exists e, add_state self state fs h initial w = (w, inl e)) \/
  exists fsm st,
    fsms w !! self = Some fsm /\ objs w !! state = Some st /\
    states fsm !! name st = None /\
    (initial = true -> initial_state fsm = None) /\
    (initial = true \/ from_states_tuple fs <> []) /\
    forallb isinstance_State (from_states_tuple fs) = true /\
    add_state self state fs h initial w =
      (added self state (name st) (from_states_tuple fs) h initial w, inr tt).
Proof.
  unfold add_state, attr_name, added. munfold.
  destruct (negb initial && negb (1 <=? length (from_states_tuple fs))%nat) eqn:Hv;
    [left; eauto |].
  destruct (forallb isinstance_State (from_states_tuple fs)) eqn:Ht; simpl;
    [| left; eauto].
  destruct (fsms w !! self) as [fsm |] eqn:Hf; [| left; eauto].
  destruct (objs w !! state) as [st |] eqn:Hs; [| left; eauto].
  destruct (states fsm !! name st) as [r |] eqn:Hn.
  { rewrite bool_decide_eq_true_2 by eauto. left; eauto. }
  rewrite bool_decide_eq_false_2 by (intros [? ?]; done).
  assert (Hne : initial = true \/ from_states_tuple fs <> []).
  { destruct initial; [now left | right]. simpl in Hv.
    destruct (from_states_tuple fs); [discriminate | done]. }
  destruct initial; simpl.
  - destruct (initial_state fsm) as [i |] eqn:Hi.
    + rewrite bool_decide_eq_true_2 by eauto. left.
      destruct (objs w !! i); eauto.
    + rewrite bool_decide_eq_false_2 by (intros [? ?]; done).
      right. exists fsm, st. repeat split; try done.
  - right. exists fsm, st. repeat split; try done.
Qed.

Lemma later_added (self state : ref) (t : list PyVal) (h : Callable)
    (initial : bool) (w : World) (fsm : FiniteStateMachine) (st : State) :
  fsms w !! self = Some fsm -> objs w !! state = Some st ->
  states fsm !! name st = None ->
  (initial = true -> initial_state fsm = None) ->
  later w (added self state (name st) t h initial w).
Proof.
  intros Hf Hs Hfree Hini.
  split; [| split; [| split; [| split]]].
  - intros r st0 Hr. rewrite added_objs.
    destruct (decide (state = r)) as [<- | Hne]; [| eauto].
    rewrite Hr. simpl. eauto.
  - intros m fsm0 Hm. destruct (decide (m = self)) as [-> | Hne].
    + rewrite (added_fsm self state (name st) t h initial w fsm Hf).
      rewrite Hf in Hm. injection Hm as <-.
      eexists. split; [done |]. simpl. split.
      * intros i Hi. destruct initial; [| done]. rewrite Hini in Hi; done.
      * intros n r Hn. rewrite lookup_insert_ne; [done |]. congruence.
    + exists fsm0. split; [| done].
      unfold added. destruct initial; simpl;
        now rewrite ?list_lookup_alter_ne by done.
  - unfold added. now destruct initial.
  - unfold added. now destruct initial.
  - unfold added. now destruct initial.
Qed.

Lemma monotone_add_state (self state : ref) (fs : FromStates) (h : Callable)
    (initial : bool) :
  monotone (add_state self state fs h initial).
Proof.
  intros w.
  destruct (add_state_outcome self state fs h initial w)
    as [[e ->] | (fsm & st & Hf & Hs & Hfree & Hini & _ & _ & ->)];
    [apply later_refl |].
  now apply (later_added self state _ h initial w fsm st).
Qed.

Lemma later_new_State (n : string) (w : World) : later w (new_State n w).1.
Proof.
  repeat split; try done; simpl; [| eauto].
  intros r st Hr. exists st. split; [| done].
  rewrite lookup_app_l; [done | now apply lookup_lt_Some in Hr].
Qed.

Lemma later_new_FiniteStateMachine (w : World) : later w (new_FiniteStateMachine w).1.
Proof.
  repeat split; try done; simpl; [eauto |].
  intros m fsm Hm. exists fsm. split; [| done].
  rewrite lookup_app_l; [done | now apply lookup_lt_Some in Hm].
Qed.

Lemma later_new_instance (attrs : gmap string PyVal) (w : World) :
  later w (new_instance attrs w).1.
Proof.
  repeat split; try done; simpl; [eauto | eauto |].
  intros i [d Hi]. exists d.
  rewrite lookup_app_l; [done | now apply lookup_lt_Some in Hi].
Qed.

Lemma monotone_do_op (o : Op) : monotone (do_op o).
Proof.
  destruct o; simpl.
  - intros w. apply later_new_State.
  - intros w. apply later_new_FiniteStateMachine.
  - intros w. apply later_new_instance.
  - apply monotone_add_state.
  - apply monotone_start.
  - apply monotone_dispatch_event.
  - apply monotone_transition_to.
Qed.

(** Whatever a driver calls, on whatever machines and with whatever
    handlers, the store at the end is a later store. *)
Lemma later_drive (ops : list Op) (w : World) : later w (drive ops w).1.
Proof.
  revert w. induction ops as [| o ops IH]; intros w; simpl; [apply later_refl |].
  pose proof (monotone_do_op o w) as Ho.
  destruct (do_op o w) as [w1 r]. specialize (IH w1).
  destruct (drive ops w1) as [w2 rs]. simpl in *.
  now apply (later_trans _ w1).
Qed.

(** X1. The initial state of a machine is set once: after any calls of a
    driver (creations, [add_state], [start], [dispatch_event],
    [transition_to], on this or any other machine, returning or raising, with
    any handlers) a machine that had an initial state has the same one. *)
Theorem initial_state_set_once (ops : list Op) (w : World) (self i : ref) :
  initial_of self w = Some i -> initial_of self (drive ops w).1 = Some i.
Proof.
  unfold initial_of. intros Hi.
  destruct (later_drive ops w) as (_ & Hf & _).
  destruct (fsms w !! self) as [fsm |] eqn:Hm; [| done].
  destruct (Hf self fsm Hm) as (fsm' & -> & Hini & _). simpl in *. auto.
Qed.

(** X2. The registry only grows: after any calls of a driver, a name that
    was a key of the registry of a machine is still bound to the same State
    there. Nothing removes or rebinds a registered name. *)
Theorem registry_only_grows (ops : list Op) (w : World) (self r : ref) (n : string) :
  registry_of self w !! n = Some r -> registry_of self (drive ops w).1 !! n = Some r.
Proof.
  unfold registry_of. intros Hn.
  destruct (later_drive ops w) as (_ & Hf & _).
  destruct (fsms w !! self) as [fsm |] eqn:Hm; [| done].
  destruct (Hf self fsm Hm) as (fsm' & -> & _ & Hreg). simpl in *. auto.
Qed.

(** X3. The name of a State never changes: after any calls of a driver,
    every State object is still there under the name it was created with. *)
Theorem state_name_never_changes (ops : list Op) (w : World) (r : ref) (n : string) :
  name <$> objs w !! r = Some n -> name <$> objs (drive ops w).1 !! r = Some n.
Proof.
  intros Hn. destruct (later_drive ops w) as (Ho & _).
  destruct (objs w !! r) as [st |] eqn:Hr; [| done].
  destruct (Ho r st Hr) as (st' & -> & Hname). simpl in *. congruence.
Qed.

Lemma initial_state_set_once_witness :
  initial_of 0
    (drive [OpDispatch 0 (VStr "COIN"); OpAddState 0 1 FromNone CNone true; OpStart 0]
       Turnstile.started).1 = Some Turnstile.STATE_LOCKED.
Proof.
  exact (initial_state_set_once _ Turnstile.started 0 Turnstile.STATE_LOCKED eq_refl).
Defined.

Lemma registry_only_grows_witness :
  registry_of 0
    (drive [OpNewState "STATE_LOCKED"; OpAddState 0 2 FromNone CNone true;
            OpDispatch 0 (VStr "COIN")] Turnstile.started).1 !! "STATE_LOCKED" =
    Some Turnstile.STATE_LOCKED.
Proof.
  exact (registry_only_grows _ Turnstile.started 0 Turnstile.STATE_LOCKED
           "STATE_LOCKED" eq_refl).
Defined.

Lemma state_name_never_changes_witness :
  name <$> objs (drive [OpStart 0; OpAddState 0 1 (FromState 0) CNone false]
                   Turnstile.started).1 !! Turnstile.STATE_UNLOCKED =
    Some "STATE_UNLOCKED".
Proof.
  exact (state_name_never_changes _ Turnstile.started Turnstile.STATE_UNLOCKED
           "STATE_UNLOCKED" eq_refl).
Defined.

(** A call of [add_state] that passes the four checks. *)
Lemma add_state_ok (w : World) (self state : ref) (fs : FromStates) (h : Callable)
    (initial : bool) (fsm : FiniteStateMachine) (st : State) :
  fsms w !! self = Some fsm -> objs w !! state = Some st ->
  initial = true \/ from_states_tuple fs <> [] ->
  Forall (fun v => exists r, v = VState r) (from_states_tuple fs) ->
  states fsm !! name st = None ->
  (initial = true -> initial_state fsm = None) ->
  add_state self state fs h initial w =
    (added self state (name st) (from_states_tuple fs) h initial w, inr tt).
Proof.
  intros Hf Hs Hne Hall Hfree Hini. unfold add_state.
  assert (negb initial && negb (1 <=? length (from_states_tuple fs))%nat = false) as ->.
  { destruct Hne as [-> | Hne]; [reflexivity |].
    destruct (from_states_tuple fs); [done |]. simpl. now rewrite andb_false_r. }
  apply forallb_isinstance_State in Hall. rewrite Hall. simpl.
  rewrite (bind_ok _ _ _ _ _ (get_fsm_ok _ _ _ Hf)).
  rewrite (bind_ok _ _ _ _ _ (get_state_ok _ _ _ Hs)).
  rewrite Hfree. rewrite bool_decide_eq_false_2 by (intros [? ?]; done).
  unfold added. destruct initial; simpl; [| reflexivity].
  rewrite Hini by done.
  rewrite bool_decide_eq_false_2 by (intros [? ?]; done). reflexivity.
Qed.

(** A call of [add_state] for a name that is registered, when the two
    checks before that one pass. *)
Lemma add_state_key_error (w : World) (self state : ref) (fs : FromStates)
    (h : Callable) (initial : bool) (fsm : FiniteStateMachine) (st : State) :
  fsms w !! self = Some fsm -> objs w !! state = Some st ->
  initial = true \/ from_states_tuple fs <> [] ->
  forallb isinstance_State (from_states_tuple fs) = true ->
  is_Some (states fsm !! name st) ->
  add_state self state fs h initial w =
    (w, inl (Exc KeyError "State already exists in FSM.")).
Proof.
  intros Hf Hs Hne Hall Hdup. unfold add_state.
  assert (negb initial && negb (1 <=? length (from_states_tuple fs))%nat = false) as ->.
  { destruct Hne as [-> | Hne]; [reflexivity |].
    destruct (from_states_tuple fs); [done |]. simpl. now rewrite andb_false_r. }
  rewrite Hall. simpl.
  rewrite (bind_ok _ _ _ _ _ (get_fsm_ok _ _ _ Hf)).
  rewrite (bind_ok _ _ _ _ _ (get_state_ok _ _ _ Hs)).
  now rewrite bool_decide_eq_true_2.
Qed.

(** X4. A call of [add_state] that passes its checks (the state is initial
    or has an entry in [from_states], every entry is a State, the name is
    free, and no initial state is declared yet when this one is initial)
    returns and does this and no more: the registry binds the name of the
    State to it and keeps every other binding; the State gets the tuple as
    [from_states] and the handler as [handler_func], and keeps its name;
    [initial_state] and [current_state] both become the State when it is
    initial and stay as they were when it is not; no other State and no
    other machine changes. *)
Theorem add_state_registers (w : World) (self state : ref) (fs : FromStates)
    (h : Callable) (initial : bool) (fsm : FiniteStateMachine) (st : State) :
  fsms w !! self = Some fsm -> objs w !! state = Some st ->
  initial = true \/ from_states_tuple fs <> [] ->
  Forall (fun v => exists r, v = VState r) (from_states_tuple fs) ->
  states fsm !! name st = None ->
  (initial = true -> initial_state fsm = None) ->
  let out := add_state self state fs h initial w in
  out.2 = inr tt /\
  registry_of self out.1 = <[name st := state]> (states fsm) /\
  objs out.1 !! state =
    Some {| name := name st; handler_func := h;
            from_states := from_states_tuple fs; generator := generator st |} /\
  initial_of self out.1 = (if initial then Some state else initial_state fsm) /\
  current_of self out.1 = (if initial then Some state else current_state fsm) /\
  (forall r, r <> state -> objs out.1 !! r = objs w !! r) /\
  (forall m, m <> self -> fsms out.1 !! m = fsms w !! m).
Proof.
  intros Hf Hs Hne Hall Hfree Hini. cbv zeta.
  rewrite (add_state_ok w self state fs h initial fsm st Hf Hs Hne Hall Hfree Hini).
  pose proof (added_fsm self state (name st) (from_states_tuple fs) h initial w fsm Hf)
    as Hf'.
  simpl. unfold registry_of, initial_of, current_of. rewrite Hf'. simpl.
  repeat split.
  - rewrite added_objs. destruct (decide (state = state)); [| done]. now rewrite Hs.
  - intros r Hr. rewrite added_objs. destruct (decide (state = r)); [congruence | done].
  - intros m Hm. unfold added. destruct initial; simpl;
      now rewrite ?list_lookup_alter_ne by done.
Qed.

Lemma add_state_registers_witness :
  let out := add_state 0 2 (FromSeq [VState 0; VState 1]) CNone false
               (new_State "STATE_JAMMED" Turnstile.started).1 in
  out.2 = inr tt /\
  registry_of 0 out.1 !! "STATE_JAMMED" = Some 2 /\
  current_of 0 out.1 = Some Turnstile.STATE_LOCKED.
Proof.
  destruct (add_state_registers (new_State "STATE_JAMMED" Turnstile.started).1 0 2
              (FromSeq [VState 0; VState 1]) CNone false _ _ eq_refl eq_refl)
    as (Hr & Hreg & _ & _ & Hc & _).
  - right. discriminate.
  - repeat constructor; eauto.
  - reflexivity.
  - discriminate.
  - split; [exact Hr |]. split; [| exact Hc].
    rewrite Hreg. apply lookup_insert_eq.
Defined.

(** X5. The three other ways [add_state] fails, each leaving the store as
    it was. A state that is not initial and has no entry in [from_states] is
    refused with [ValueError] before anything else is looked at. Past that
    check, an entry of [from_states] that is not a State is refused with
    [TypeError]. Past these and the check of the name, a second initial
    state is refused with [RuntimeError], and its message names the initial
    state there is and the State refused. *)
Theorem add_state_rejections (w : World) (self state : ref) (fs : FromStates)
    (h : Callable) (initial : bool) :
  (initial = false -> from_states_tuple fs = [] ->
     add_state self state fs h initial w = (w, inl (Exc ValueError ""))) /\
  (initial = true \/ from_states_tuple fs <> [] ->
   ~ Forall (fun v => exists r, v = VState r) (from_states_tuple fs) ->
     add_state self state fs h initial w = (w, inl (Exc TypeError ""))) /\
  (forall fsm st i ist,
     fsms w !! self = Some fsm -> objs w !! state = Some st ->
     Forall (fun v => exists r, v = VState r) (from_states_tuple fs) ->
     states fsm !! name st = None ->
     initial = true -> initial_state fsm = Some i -> objs w !! i = Some ist ->
     add_state self state fs h initial w =
       (w, inl (Exc RuntimeError
                  ("State machine cannot have multiple initial states (" +:+
                   name ist +:+ ", " +:+ name st +:+ ")")))).
Proof.
  split; [| split].
  - intros -> Hnil. unfold add_state. now rewrite Hnil.
  - intros Hne Hall. unfold add_state.
    assert (negb initial && negb (1 <=? length (from_states_tuple fs))%nat = false) as ->.
    { destruct Hne as [-> | Hne]; [reflexivity |].
      destruct (from_states_tuple fs); [done |]. simpl. now rewrite andb_false_r. }
    destruct (forallb isinstance_State (from_states_tuple fs)) eqn:Ht; [| reflexivity].
    apply forallb_isinstance_State in Ht. done.
  - intros fsm st i ist Hf Hs Hall Hfree -> Hi Hist. unfold add_state. simpl.
    apply forallb_isinstance_State in Hall. rewrite Hall. simpl.
    rewrite (bind_ok _ _ _ _ _ (get_fsm_ok _ _ _ Hf)).
    rewrite (bind_ok _ _ _ _ _ (get_state_ok _ _ _ Hs)).
    rewrite Hfree. rewrite bool_decide_eq_false_2 by (intros [? ?]; done).
    rewrite Hi. rewrite bool_decide_eq_true_2 by eauto.
    unfold attr_name.
    erewrite bind_ok; [reflexivity |].
    now rewrite (bind_ok _ _ _ _ _ (get_state_ok _ _ _ Hist)).
Qed.

Lemma add_state_rejections_witness :
  let w := (new_State "STATE_JAMMED" Turnstile.started).1 in
  add_state 0 2 FromNone CNone false w = (w, inl (Exc ValueError "")) /\
  add_state 0 2 (FromSeq [VState 0; VNone]) CNone false w =
    (w, inl (Exc TypeError "")) /\
  add_state 0 2 (FromState 0) CNone true w =
    (w, inl (Exc RuntimeError
               "State machine cannot have multiple initial states (STATE_LOCKED, STATE_JAMMED)")).
Proof.
  intros w. split; [| split].
  - exact (proj1 (add_state_rejections w 0 2 FromNone CNone false) eq_refl eq_refl).
  - refine (proj1 (proj2 (add_state_rejections w 0 2 (FromSeq [VState 0; VNone])
                            CNone false)) _ _).
    + right. discriminate.
    + intros Hall. apply Forall_cons in Hall as [_ Hall].
      apply Forall_cons in Hall as [[r Hr] _]. discriminate.
  - refine (proj2 (proj2 (add_state_rejections w 0 2 (FromState 0) CNone true))
              _ _ 0 _ eq_refl eq_refl _ eq_refl eq_refl eq_refl eq_refl).
    repeat constructor. eauto.
Defined.

(** X6. Registration is not repeatable: when a call of [add_state] has
    returned, the same call again raises [KeyError] ("State already exists in
    FSM.") and changes nothing. *)
Theorem add_state_twice (w : World) (self state : ref) (fs : FromStates)
    (h : Callable) (initial : bool) :
  (add_state self state fs h initial w).2 = inr tt ->
  let w' := (add_state self state fs h initial w).1 in
  add_state self state fs h initial w' =
    (w', inl (Exc KeyError "State already exists in FSM.")).
Proof.
  intros Hok.
  destruct (add_state_outcome self state fs h initial w)
    as [[e He] | (fsm & st & Hf & Hs & Hfree & Hini & Hne & Hall & Hadd)].
  { rewrite He in Hok. discriminate. }
  rewrite Hadd. simpl.
  pose proof (added_fsm self state (name st) (from_states_tuple fs) h initial w fsm Hf)
    as Hf'.
  apply (add_state_key_error _ self state fs h initial _
           (configure (from_states_tuple fs) h st) Hf'); [| exact Hne | exact Hall |].
  - rewrite added_objs. destruct (decide (state = state)); [| done].
    now rewrite Hs.
  - simpl. rewrite lookup_insert_eq. eauto.
Qed.

Lemma add_state_twice_witness :
  let w := (new_State "STATE_JAMMED" Turnstile.started).1 in
  let w' := (add_state 0 2 (FromState 0) CNone false w).1 in
  add_state 0 2 (FromState 0) CNone false w' =
    (w', inl (Exc KeyError "State already exists in FSM.")).
Proof.
  exact (add_state_twice (new_State "STATE_JAMMED" Turnstile.started).1 0 2
           (FromState 0) CNone false eq_refl).
Defined.

(** ** [transition_to] and [dispatch_event]: what they leave and refuse *)

(** X7. A call of [transition_to], returning or raising, changes nothing but
    the current state of its own machine: every State, the registry and the
    initial state of the machine, every other machine, the instances and the
    output are as before. *)
Theorem transition_to_only_moves_current (self : ref) (v : PyVal) (w : World) :
  let w' := (transition_to self v w).1 in
  objs w' = objs w /\ insts w' = insts w /\ stdout w' = stdout w /\
  delivered w' = delivered w /\
  registry_of self w' = registry_of self w /\
  initial_of self w' = initial_of self w /\
  length (fsms w') = length (fsms w) /\
  (forall m, m <> self -> fsms w' !! m = fsms w !! m).
Proof.
  cbv zeta.
  destruct (transition_to_cases self v w)
    as [-> | (t & fsm & target & -> & Hf & Ht & Hin & ->)]; [done |].
  unfold moved, registry_of, initial_of. simpl.
  rewrite list_lookup_insert_eq by now apply lookup_lt_Some in Hf.
  rewrite Hf, length_insert. simpl.
  repeat split; try done. intros m Hm. now rewrite list_lookup_insert_ne.
Qed.

Lemma py_in_none_states (t : list PyVal) :
  Forall (fun v => exists r, v = VState r) t -> py_in VNone t = false.
Proof.
  induction 1 as [| v t [r ->] _ IH]; [done |]. simpl. exact IH.
Qed.

(** X8. Three calls of [transition_to] that never succeed, each leaving the
    store as it was. A target that is not a State is refused with
    [TypeError]. On a machine with no current state yet (no initial state
    was registered) a State is refused with [AttributeError], raised while
    the message of the refusal is built from the name of [None], and not
    with [InvalidStateTransition]. A State that was never registered
    anywhere (its [from_states] is empty) is refused with
    [InvalidStateTransition] from every current state. *)
Theorem transition_to_never_succeeds (w : World) (self : ref)
    (fsm : FiniteStateMachine) :
  fsms w !! self = Some fsm ->
  (forall v, isinstance_State v = false ->
     transition_to self v w = (w, inl (Exc TypeError ""))) /\
  (forall t target,
     current_state fsm = None -> objs w !! t = Some target ->
     Forall (fun v => exists r, v = VState r) (from_states target) ->
     transition_to self (VState t) w =
       (w, inl (Exc AttributeError "'NoneType' object has no attribute 'name'"))) /\
  (forall t target x cur,
     current_state fsm = Some x -> objs w !! x = Some cur ->
     objs w !! t = Some target -> from_states target = [] ->
     transition_to self (VState t) w =
       (w, inl (Exc InvalidStateTransition
                  ("Cannot transition from state " +:+ name cur +:+
                   " to state " +:+ name target)))).
Proof.
  intros Hf. split; [| split].
  - intros v Hv. now destruct v.
  - intros t target Hc Ht Hall. unfold transition_to.
    rewrite (bind_ok _ _ _ _ _ (get_fsm_ok _ _ _ Hf)).
    rewrite (bind_ok _ _ _ _ _ (get_state_ok _ _ _ Ht)).
    rewrite Hc. simpl. now rewrite (py_in_none_states _ Hall).
  - intros t target x cur Hc Hx Ht Hnil.
    apply (transition_to_refused w self t x fsm target cur Hf Ht Hc Hx).
    now rewrite Hnil.
Qed.

Lemma transition_to_never_succeeds_witness :
  let w := (new_State "STATE_JAMMED" Turnstile.started).1 in
  transition_to 0 (VStr "STATE_LOCKED") w = (w, inl (Exc TypeError "")) /\
  transition_to 0 (VState 2) w =
    (w, inl (Exc InvalidStateTransition
               "Cannot transition from state STATE_LOCKED to state STATE_JAMMED")).
Proof.
  intros w.
  destruct (transition_to_never_succeeds w 0 _ eq_refl) as (Hty & _ & Hfresh).
  split; [exact (Hty (VStr "STATE_LOCKED") eq_refl) |].
  exact (Hfresh 2 _ 0 _ eq_refl eq_refl eq_refl eq_refl).
Defined.

(** X9. The three ways [dispatch_event] fails before any handler runs, each
    leaving the store as it was and delivering the event to nobody. With no
    current state (no initial state was registered) it raises
    [AttributeError]; when the name of the current state is no key of the
    registry it raises [KeyError] with that name; when the State under that
    name has no generator ([start] was not called since the State was made)
    it raises [AttributeError]. *)
Theorem dispatch_event_fails_early (w : World) (self : ref) (event : PyVal)
    (fsm : FiniteStateMachine) :
  fsms w !! self = Some fsm ->
  (current_state fsm = None ->
     dispatch_event self event w =
       (w, inl (Exc AttributeError "'NoneType' object has no attribute 'name'"))) /\
  (forall c st,
     current_state fsm = Some c -> objs w !! c = Some st ->
     states fsm !! name st = None ->
     dispatch_event self event w = (w, inl (Exc KeyError (name st)))) /\
  (forall state st,
     target_of self w = Some state -> objs w !! state = Some st ->
     generator st = None ->
     dispatch_event self event w =
       (w, inl (Exc AttributeError "'State' object has no attribute 'generator'"))).
Proof.
  intros Hf. split; [| split].
  - intros Hc. unfold dispatch_event.
    rewrite (bind_ok _ _ _ _ _ (get_fsm_ok _ _ _ Hf)). now rewrite Hc.
  - intros c st Hc Hs Hn. now apply (dispatch_event_unregistered w self c event fsm st).
  - intros state st Ht Hs Hg. rewrite (dispatch_event_target _ _ _ _ Ht).
    unfold gen_send. rewrite (bind_ok _ _ _ _ _ (get_state_ok _ _ _ Hs)).
    now rewrite Hg.
Qed.

Lemma dispatch_event_fails_early_witness :
  dispatch_event 0 (VStr "COIN") turnstile_built =
    (turnstile_built,
     inl (Exc AttributeError "'State' object has no attribute 'generator'")).
Proof.
  exact (proj2 (proj2 (dispatch_event_fails_early turnstile_built 0 (VStr "COIN") _
                         turnstile_built_fsm))
           Turnstile.STATE_LOCKED _ eq_refl eq_refl eq_refl).
Defined.

(** ** [start], when it returns *)

(** One turn of the loop of [start] that returns: the handler of the State
    was callable, its generator is parked, and no other State changed. *)
Lemma prime_returns (self r : ref) (w w' : World) :
  prime self r w = (w', inr tt) ->
  (exists st b fr,
     objs w !! r = Some st /\ call_handler (handler_func st) self = inr b /\
     objs w' !! r = Some (primed b fr st)) /\
  (forall r0, r0 <> r -> objs w' !! r0 = objs w !! r0).
Proof.
  unfold prime. intros Hp.
  destruct (objs w !! r) as [st |] eqn:Hs;
    [| unfold bind in Hp; munfold; rewrite Hs in Hp; discriminate].
  rewrite (bind_ok _ _ _ _ _ (get_state_ok _ _ _ Hs)) in Hp.
  destruct (call_handler (handler_func st) self) as [e | b] eqn:Hb; [discriminate |].
  rewrite (bind_ok _ _ _ _ _ (set_generator_ok _ _ _ _ Hs)) in Hp.
  set (w1 := set_objs _ w) in Hp.
  assert (Hlen : r < length (objs w)) by now apply lookup_lt_Some in Hs.
  assert (Hs1 : objs w1 !! r =
                Some (with_generator (Some {| gen_body := b; gen_state := GenCreated |}) st)).
  { subst w1. simpl. now apply list_lookup_insert_eq. }
  unfold gen_send in Hp.
  rewrite (bind_ok _ _ _ _ _ (get_state_ok _ _ _ Hs1)) in Hp. simpl in Hp.
  unfold bind at 1 in Hp. unfold attempt in Hp.
  pose proof (run_frame (gb_setup b) w1) as [Ho _].
  destruct (run (gb_setup b) w1) as [w2 res]. simpl in Ho.
  assert (Hs2 : objs w2 !! r =
                Some (with_generator (Some {| gen_body := b; gen_state := GenCreated |}) st))
    by now rewrite Ho.
  rewrite (park_ok _ _ _ _ _ Hs2) in Hp.
  destruct res as [e | [fr |]]; simpl in Hp; try discriminate.
  injection Hp as <-. split.
  - exists st, b, fr. repeat split; try done. simpl. rewrite Ho.
    apply list_lookup_insert_eq. subst w1. simpl. now rewrite length_insert.
  - intros r0 Hr0. simpl. rewrite Ho. subst w1. simpl.
    now rewrite !list_lookup_insert_ne by done.
Qed.

(** The loop of [start] that returns: every State of the list has a callable
    handler and a parked generator, and nothing else of any State changed. *)
Lemma prime_all_returns (self : ref) (l : list ref) (w w' : World) :
  for_each l (prime self) w = (w', inr tt) ->
  (forall r, with_generator None <$> objs w' !! r = with_generator None <$> objs w !! r) /\
  (forall r, r ∉ l -> objs w' !! r = objs w !! r) /\
  (forall r, r ∈ l ->
     exists st b fr,
       objs w !! r = Some st /\ call_handler (handler_func st) self = inr b /\
       objs w' !! r = Some (primed b fr st)).
Proof.
  revert w. induction l as [| r l IH]; intros w Hrun; simpl in Hrun.
  - injection Hrun as <-. repeat split; try done.
    intros r Hr. now apply elem_of_nil in Hr.
  - unfold bind in Hrun. destruct (prime self r w) as [w1 [e | []]] eqn:Hp;
      [discriminate |].
    destruct (prime_returns self r w w1 Hp) as [(st & b & fr & Hs & Hb & Hs1) Hoth].
    destruct (IH w1 Hrun) as (Hsame & Hout & Hin).
    assert (Hstep : forall r0,
              with_generator None <$> objs w1 !! r0 = with_generator None <$> objs w !! r0).
    { intros r0. destruct (decide (r0 = r)) as [-> | Hne].
      - now rewrite Hs1, Hs.
      - now rewrite Hoth. }
    split; [| split].
    + intros r0. now rewrite Hsame, Hstep.
    + intros r0 Hr0. apply not_elem_of_cons in Hr0 as [Hne Hr0].
      now rewrite (Hout r0 Hr0), Hoth.
    + intros r0 Hr0. destruct (decide (r0 ∈ l)) as [Hmem | Hnot].
      * destruct (Hin r0 Hmem) as (st1 & b1 & fr1 & Hs1' & Hb1 & Hs').
        specialize (Hstep r0). rewrite Hs1' in Hstep.
        destruct (objs w !! r0) as [st0 |] eqn:Hs0; [| done].
        simpl in Hstep. injection Hstep as Hname Hh Hfs.
        exists st0, b1, fr1. split; [done |].
        split; [now rewrite <- Hh |].
        rewrite Hs'. unfold primed, with_generator. now rewrite Hname, Hh, Hfs.
      * apply elem_of_cons in Hr0 as [-> | Hr0]; [| done].
        exists st, b, fr. repeat split; try done. now rewrite (Hout r Hnot).
Qed.

(** X10. When [start] returns, an initial state was declared and every
    State of the registry had a callable handler and now has the generator
    of that handler parked at a [yield]; the rest of every State is as it
    was. So [start] raises whenever a registered State was given no handler
    (the default [handler_func=None]). *)
Theorem start_returns_all_parked (w : World) (self : ref) (fsm : FiniteStateMachine) :
  fsms w !! self = Some fsm ->
  ((start self w).2 = inr tt ->
     is_Some (initial_state fsm) /\
     (forall r, with_generator None <$> objs (start self w).1 !! r =
                with_generator None <$> objs w !! r) /\
     (forall n r, states fsm !! n = Some r ->
        exists st b fr,
          objs w !! r = Some st /\ call_handler (handler_func st) self = inr b /\
          parked_at r (start self w).1 = Some (b, fr))) /\
  (forall n r st,
     states fsm !! n = Some r -> objs w !! r = Some st -> handler_func st = CNone ->
     exists e, (start self w).2 = inl e).
Proof.
  intros Hf.
  assert (Hmain : (start self w).2 = inr tt ->
     is_Some (initial_state fsm) /\
     (forall r, with_generator None <$> objs (start self w).1 !! r =
                with_generator None <$> objs w !! r) /\
     (forall n r, states fsm !! n = Some r ->
        exists st b fr,
          objs w !! r = Some st /\ call_handler (handler_func st) self = inr b /\
          parked_at r (start self w).1 = Some (b, fr))).
  { rewrite start_unfold.
    rewrite (bind_ok _ _ _ _ _ (get_fsm_ok _ _ _ Hf)).
    destruct (initial_state fsm) as [i |] eqn:Hi; [| discriminate].
    assert (Hset : set_current_state self (Some i) w = (moved self i fsm w, inr tt)).
    { unfold set_current_state. now rewrite (bind_ok _ _ _ _ _ (get_fsm_ok _ _ _ Hf)). }
    rewrite (bind_ok _ _ _ _ _ Hset).
    destruct (for_each (map_to_list (states fsm)).*2 (prime self) (moved self i fsm w))
      as [w' [e | []]] eqn:Hrun; [discriminate |].
    intros _. simpl.
    destruct (prime_all_returns self _ _ w' Hrun) as (Hsame & _ & Hin).
    split; [eauto |]. split; [exact Hsame |].
    intros n r Hn.
    destruct (Hin r) as (st & b & fr & Hs & Hb & Hs');
      [apply elem_of_registry_values; eauto |].
    exists st, b, fr. repeat split; try done.
    unfold parked_at. now rewrite Hs'. }
  split; [exact Hmain |].
  intros n r st Hn Hs Hnone.
  destruct (start self w).2 as [e | []] eqn:Hres; [eauto |].
  destruct (Hmain eq_refl) as (_ & _ & Hall).
  destruct (Hall n r Hn) as (st' & b & fr & Hs' & Hb & _).
  rewrite Hs in Hs'. injection Hs' as <-. rewrite Hnone in Hb. discriminate.
Qed.

Lemma start_returns_all_parked_witness :
  exists e, (start 0 (add_state 0 2 (FromState 0) CNone false
                        (new_State "STATE_JAMMED" Turnstile.started).1).1).2 = inl e.
Proof.
  refine (proj2 (start_returns_all_parked
                   (add_state 0 2 (FromState 0) CNone false
                      (new_State "STATE_JAMMED" Turnstile.started).1).1 0 _ eq_refl)
            "STATE_JAMMED" 2 _ eq_refl eq_refl eq_refl).
Defined.

(** The generator that a decorated function gives is parked by its first
    [next] with nothing done. *)
Lemma decorated_primes (self : ref) (st : State) (f : PyFunc) :
  handler_func st = CGen (state_handler f) \/
  (exists i, handler_func st = CInst i (state_handler f)) ->
  exists b, primes_to self st b ∅.
Proof.
  intros [Hh | [i Hh]]; unfold primes_to; rewrite Hh;
    (eexists; split; [reflexivity | intros w; reflexivity]).
Qed.

(** X11. Decorated handlers cannot make [start] fail: on a machine with an
    initial state whose registered States all have a handler made by
    [state_handler] (a decorated function, or an instance whose [__call__] is
    decorated), [start] returns, the current state is the initial state, and
    every registered State has its generator parked with nothing assigned
    yet. *)
Theorem decorated_handlers_start (w : World) (self i : ref)
    (fsm : FiniteStateMachine) :
  fsms w !! self = Some fsm -> initial_state fsm = Some i ->
  (forall n r, states fsm !! n = Some r ->
     exists st f, objs w !! r = Some st /\
       (handler_func st = CGen (state_handler f) \/
        exists inst, handler_func st = CInst inst (state_handler f))) ->
  (start self w).2 = inr tt /\
  current_of self (start self w).1 = Some i /\
  (forall n r, states fsm !! n = Some r ->
     exists b, parked_at r (start self w).1 = Some (b, ∅)).
Proof.
  intros Hf Hi Hdec.
  assert (Hall : handlers_prime self fsm w).
  { intros n r Hn. destruct (Hdec n r Hn) as (st & f & Hs & Hh).
    destruct (decorated_primes self st f Hh) as [b Hb]. eauto. }
  destruct (start_ok w self i fsm Hf Hi Hall)
    as (w' & -> & Hf' & _ & _ & _ & _ & Hin). simpl.
  split; [done |].
  split; [now destruct (current_of_insert w w' self (Some i) fsm Hf Hf') |].
  intros n r Hn. destruct (Hdec n r Hn) as (st & f & Hs & Hh).
  destruct (decorated_primes self st f Hh) as [b Hb].
  exists b. unfold parked_at. now rewrite (Hin n r st b ∅ Hn Hs Hb).
Qed.

Lemma demo_built_fsm :
  fsms demo_built !! 0 =
    Some {| initial_state := Some Demo.STATE_A;
            current_state := Some Demo.STATE_A;
            states := <["STATE_C" := Demo.STATE_C]>
                        (<["STATE_B" := Demo.STATE_B]>
                           (<["STATE_A" := Demo.STATE_A]> ∅)) |}.
Proof. vm_compute. reflexivity. Qed.

Lemma decorated_handlers_start_witness :
  (start 0 demo_built).2 = inr tt /\
  current_of 0 (start 0 demo_built).1 = Some Demo.STATE_A.
Proof.
  destruct (decorated_handlers_start demo_built 0 Demo.STATE_A _ demo_built_fsm eq_refl)
    as (Hr & Hc & _); [| split; [exact Hr | exact Hc]].
  intros n r Hn. simpl in Hn.
  apply lookup_insert_Some in Hn as [[<- <-] | [_ Hn]];
    [eexists _, _; split; [reflexivity | left; reflexivity] |].
  apply lookup_insert_Some in Hn as [[<- <-] | [_ Hn]];
    [eexists _, _; split; [reflexivity | left; reflexivity] |].
  apply lookup_insert_Some in Hn as [[<- <-] | [_ Hn]]; [| done].
  eexists _, _; split; [reflexivity | left; reflexivity].
Defined.

(** ** The decorator and the parameters of the function it wraps *)









(** ** Drivers that differ in the style of their handlers *)

Lemma same_outcome_eq {A : Type} (r1 r2 : Exn + A) : same_outcome eq r1 r2 -> r1 = r2.
Proof. destruct r1, r2; simpl; intros H; now subst. Qed.

Lemma same_run_set_objs (f1 f2 : list State -> list State) :
  (forall l1 l2, Forall2 same_state l1 l2 -> Forall2 same_state (f1 l1) (f2 l2)) ->
  same_run eq (modify (set_objs f1)) (modify (set_objs f2)).
Proof.
  intros Hf w1 w2 (Hfs & Hi & Ho & Hd & Hobjs).
  repeat split; try done. simpl. now apply Hf.
Qed.

Lemma same_state_with_generator (g : option Generator) (st1 st2 : State) :
  same_state st1 st2 -> same_state (with_generator g st1) (with_generator g st2).
Proof. intros (Hn & Hfs & _ & Hh). now repeat split. Qed.

Lemma same_run_set_generator (state : ref) (g : option Generator) :
  same_run eq (set_generator state g) (set_generator state g).
Proof.
  unfold set_generator.
  eapply same_run_bind; [apply same_run_get_state |]. intros st1 st2 Hst.
  apply same_run_set_objs. intros l1 l2 Hl.
  apply Forall2_insert; [done |]. now apply same_state_with_generator.
Qed.

Lemma same_run_attempt {A : Type} (R : A -> A -> Prop) (c1 c2 : M A) :
  same_run R c1 c2 -> same_run (same_outcome R) (attempt c1) (attempt c2).
Proof.
  intros Hc w1 w2 Hw. unfold attempt. destruct (Hc w1 w2 Hw) as [Hw' Hr].
  now destruct (c1 w1), (c2 w2).
Qed.

Lemma same_run_park (state : ref) (b : GenBody) (res : Exn + option Frame) :
  same_run eq (park state b res) (park state b res).
Proof.
  unfold park. destruct res as [e | [fr |]].
  - eapply same_run_bind; [apply same_run_set_generator |].
    intros _ _ _. apply same_run_raise.
  - apply same_run_set_generator.
  - eapply same_run_bind; [apply same_run_set_generator |].
    intros _ _ _. apply same_run_raise.
Qed.

Lemma same_run_gen_send (state : ref) (v : PyVal) :
  same_run eq (gen_send state v) (gen_send state v).
Proof.
  unfold gen_send.
  eapply same_run_bind; [apply same_run_get_state |].
  intros st1 st2 (_ & _ & Hg & _). rewrite Hg.
  destruct (generator st2) as [g |]; [| apply same_run_raise].
  destruct (gen_state g) as [| fr |].
  - destruct (py_eqb v VNone); [| apply same_run_raise].
    eapply same_run_bind; [apply same_run_attempt, same_run_run |].
    intros r1 r2 Hr. apply same_outcome_eq in Hr as ->. apply same_run_park.
  - eapply same_run_bind; [apply same_run_set_delivered |]. intros _ _ _.
    eapply same_run_bind; [apply same_run_attempt, same_run_run |].
    intros r1 r2 Hr. apply same_outcome_eq in Hr as ->. apply same_run_park.
  - apply same_run_raise.
Qed.

Lemma same_run_dispatch_event (self : ref) (event : PyVal) :
  same_run eq (dispatch_event self event) (dispatch_event self event).
Proof.
  unfold dispatch_event.
  eapply same_run_bind; [apply same_run_get_fsm |]. intros fsm ? <-.
  eapply same_run_bind; [apply same_run_attr_name |]. intros n ? <-.
  destruct (states fsm !! n); [apply same_run_gen_send | apply same_run_raise].
Qed.

Lemma same_run_for_each {A : Type} (l : list A) (f1 f2 : A -> M unit) :
  (forall a, same_run eq (f1 a) (f2 a)) -> same_run eq (for_each l f1) (for_each l f2).
Proof.
  intros Hf. induction l as [| a l IH]; simpl.
  - now apply same_run_ret.
  - eapply same_run_bind; [apply Hf |]. intros _ _ _. exact IH.
Qed.

Lemma same_run_start (self : ref) : same_run eq (start self) (start self).
Proof.
  unfold start.
  eapply same_run_bind; [apply same_run_get_fsm |]. intros fsm ? <-.
  destruct (initial_state fsm) as [i |]; [| apply same_run_raise].
  eapply same_run_bind.
  { unfold set_current_state.
    eapply same_run_bind; [apply same_run_get_fsm |]. intros fsm' ? <-.
    apply same_run_set_fsms. }
  intros _ _ _. apply same_run_for_each. intros state.
  eapply same_run_bind; [apply same_run_get_state |].
  intros st1 st2 (_ & _ & _ & Hh). rewrite (Hh self).
  destruct (call_handler (handler_func st2) self) as [e | b]; [apply same_run_raise |].
  eapply same_run_bind; [apply same_run_set_generator |]. intros _ _ _.
  apply same_run_gen_send.
Qed.

Lemma same_state_configure (t : list PyVal) (h1 h2 : Callable) (st1 st2 : State) :
  same_handler h1 h2 -> same_state st1 st2 ->
  same_state (configure t h1 st1) (configure t h2 st2).
Proof. intros Hh (Hn & _ & Hg & _). now repeat split. Qed.

(** [add_state] with two handlers that give the same generators *)
Lemma same_run_add_state (self state : ref) (fs : FromStates) (h1 h2 : Callable)
    (initial : bool) :
  same_handler h1 h2 ->
  same_run eq (add_state self state fs h1 initial) (add_state self state fs h2 initial).
Proof.
  intros Hh. unfold add_state.
  destruct (negb initial && negb (1 <=? length (from_states_tuple fs))%nat);
    [apply same_run_raise |].
  destruct (negb (forallb isinstance_State (from_states_tuple fs)));
    [apply same_run_raise |].
  eapply same_run_bind; [apply same_run_get_fsm |]. intros fsm ? <-.
  eapply same_run_bind; [apply same_run_get_state |].
  intros st1 st2 (Hn & _). rewrite Hn.
  destruct (bool_decide (is_Some (states fsm !! name st2))); [apply same_run_raise |].
  destruct (initial && bool_decide (is_Some (initial_state fsm))).
  { eapply same_run_bind; [apply same_run_attr_name |]. intros n ? <-.
    apply same_run_raise. }
  eapply same_run_bind; [apply same_run_set_fsms |]. intros _ _ _.
  eapply same_run_bind.
  { apply same_run_set_objs. intros l1 l2 Hl. apply Forall2_alter; [done |].
    intros x y _ _ Hxy. now apply same_state_configure. }
  intros _ _ _. destruct initial; [apply same_run_set_fsms | now apply same_run_ret].
Qed.

Lemma same_run_new_State (n : string) : same_run eq (new_State n) (new_State n).
Proof.
  intros w1 w2 (Hfs & Hi & Ho & Hd & Hobjs). unfold new_State. simpl. split.
  - repeat split; try done. simpl. apply Forall2_app; [done |].
    constructor; [apply same_state_refl | constructor].
  - now rewrite (Forall2_length _ _ _ Hobjs).
Qed.

Lemma same_run_new_FiniteStateMachine :
  same_run eq new_FiniteStateMachine new_FiniteStateMachine.
Proof.
  intros w1 w2 (Hfs & Hi & Ho & Hd & Hobjs). unfold new_FiniteStateMachine. simpl.
  split; [| now rewrite Hfs]. repeat split; try done. simpl. now rewrite Hfs.
Qed.

Lemma same_run_new_instance (attrs : gmap string PyVal) :
  same_run eq (new_instance attrs) (new_instance attrs).
Proof.
  intros w1 w2 (Hfs & Hi & Ho & Hd & Hobjs). unfold new_instance. simpl.
  split; [| now rewrite Hi]. repeat split; try done. simpl. now rewrite Hi.
Qed.

Lemma same_run_do_op (o1 o2 : Op) : same_op o1 o2 -> same_run eq (do_op o1) (do_op o2).
Proof.
  intros Ho.
  destruct o1 as [n | | attrs | m1 s1 fs1 h1 i1 | m | m ev | m v];
    try (simpl in Ho; subst o2; simpl).
  - eapply same_run_bind; [apply same_run_new_State |]. intros _ _ _.
    now apply same_run_ret.
  - eapply same_run_bind; [apply same_run_new_FiniteStateMachine |]. intros _ _ _.
    now apply same_run_ret.
  - eapply same_run_bind; [apply same_run_new_instance |]. intros _ _ _.
    now apply same_run_ret.
  - destruct o2 as [| | | m2 s2 fs2 h2 i2 | | |]; try discriminate.
    destruct Ho as (<- & <- & <- & <- & Hh). simpl. now apply same_run_add_state.
  - apply same_run_start.
  - apply same_run_dispatch_event.
  - apply same_run_transition_to.
Qed.

Lemma same_op_refl (o : Op) : same_op o o.
Proof. destruct o; simpl; done. Qed.

Lemma same_drive (ops1 ops2 : list Op) (w1 w2 : World) :
  Forall2 same_op ops1 ops2 -> same_world w1 w2 ->
  same_world (drive ops1 w1).1 (drive ops2 w2).1 /\
  (drive ops1 w1).2 = (drive ops2 w2).2.
Proof.
  intros Hops. revert w1 w2.
  induction Hops as [| o1 o2 ops1 ops2 Ho _ IH]; intros w1 w2 Hw; simpl; [done |].
  destruct (same_run_do_op o1 o2 Ho w1 w2 Hw) as [Hw' Hr].
  destruct (do_op o1 w1) as [w1' r1], (do_op o2 w2) as [w2' r2]. simpl in Hw', Hr.
  apply same_outcome_eq in Hr as ->.
  destruct (IH w1' w2' Hw') as [Hw'' Hrs].
  destruct (drive ops1 w1') as [w1'' rs1], (drive ops2 w2') as [w2'' rs2].
  simpl in *. split; [done | now rewrite Hrs].
Qed.

Lemma same_world_visible (w1 w2 : World) : same_world w1 w2 -> visible w1 = visible w2.
Proof.
  intros (Hfs & Hi & Ho & Hd & Hobjs). unfold visible. rewrite Hfs, Hi, Ho, Hd.
  f_equal. induction Hobjs as [| st1 st2 l1 l2 (Hn & Hf & Hg & _) _ IH]; [done |].
  rewrite !fmap_cons, Hn, Hf, Hg. f_equal. exact IH.
Qed.

Lemma restyled_same_op (o1 o2 : Op) : restyled o1 o2 -> same_op o1 o2.
Proof.
  intros [o | f p self state fs initial Hf Hp]; [apply same_op_refl |].
  simpl. repeat split. now apply (decorated_same_as_written f p).
Qed.

(** X14. The two ways to write a handler, for a function of two parameters
    whose second is named [event]: registering the function decorated with
    [state_handler], or a generator function written by hand whose loop is
    [event = yield] and then the call of the function with the machine and
    the event, makes no difference to any driver. Of two drivers that differ
    only so, run from the same store, every call returns or raises the same,
    and the stores at the end show the same machines, instances, output,
    events delivered, and on every State the same name, [from_states] and
    generator. *)
Theorem decorated_or_written (ops1 ops2 : list Op) (w : World) :
  Forall2 restyled ops1 ops2 ->
  (drive ops1 w).2 = (drive ops2 w).2 /\
  visible (drive ops1 w).1 = visible (drive ops2 w).1.
Proof.
  intros Hops.
  destruct (same_drive ops1 ops2 w w) as [Hw Hr].
  - eapply Forall2_impl; [exact Hops | apply restyled_same_op].
  - apply same_world_refl.
  - split; [exact Hr | now apply same_world_visible].
Qed.

Lemma turnstile_ops_restyled (f : PyFunc) (p : string) :
  params f = [p; "event"] -> p <> "event" ->
  Forall2 restyled (turnstile_ops (CGen (state_handler f)))
                   (turnstile_ops (CGen (by_hand f))).
Proof.
  intros Hf Hp. unfold turnstile_ops.
  repeat (first [ apply Forall2_nil_2
                | apply Forall2_cons_2;
                  [first [ apply restyled_same
                         | now apply (restyled_handler f p) ] |] ]).
Qed.

Lemma decorated_or_written_witness :
  (drive (turnstile_ops (CGen (state_handler (Turnstile.state_locked_handler_fn 0))))
     empty_world).2 =
  (drive (turnstile_ops (CGen (by_hand (Turnstile.state_locked_handler_fn 0))))
     empty_world).2.
Proof.
  exact (proj1 (decorated_or_written _ _ empty_world
                  (turnstile_ops_restyled (Turnstile.state_locked_handler_fn 0) "fsm"
                     eq_refl ltac:(discriminate)))).
Defined.

(** ** The driver of [pystate.py] *)

Lemma for_each_raises {A : Type} (l1 l2 : list A) (a : A) (f : A -> M unit)
    (w : World) (e : Exn) :
  (for_each l1 f w).2 = inr tt -> (f a (for_each l1 f w).1).2 = inl e ->
  for_each (l1 ++ a :: l2) f w = ((f a (for_each l1 f w).1).1, inl e).
Proof.
  revert w. induction l1 as [| x l1 IH]; intros w H1 H2; simpl in *.
  - unfold bind. unfold ret in H2. simpl in H2.
    destruct (f a w) as [w' r]. simpl in *. now subst r.
  - unfold bind in *. destruct (f x w) as [w' [e' | []]]; [discriminate |].
    now apply IH.
Qed.

(** X15. What [run_event_list] catches and what it lets pass. [start] is
    called before the [try]: what it raises is raised by [run_event_list],
    and no event is dispatched. When a dispatch raises, no later event of
    the list is dispatched; an exception of the classes [ValueError],
    [InvalidStateTransition] and [FsmExit] is answered with one printed line
    and the function returns, and an exception of any other class (the
    [StopIteration] of a finished generator, [KeyError], [TypeError],
    [AttributeError]) is raised by [run_event_list]. *)
Theorem run_event_list_outcomes (self : ref) (w : World) :
  let s := start self w in
  (forall e event_list,
     s.2 = inl e -> Demo.run_event_list self event_list w = (s.1, inl e)) /\
  (forall event_list,
     let d := for_each event_list (dispatch_event self) s.1 in
     s.2 = inr tt -> d.2 = inr tt ->
     Demo.run_event_list self event_list w = (d.1, inr tt)) /\
  (forall done event rest e,
     let d := for_each done (dispatch_event self) s.1 in
     let x := dispatch_event self event d.1 in
     s.2 = inr tt -> d.2 = inr tt -> x.2 = inl e ->
     Demo.run_event_list self (done ++ event :: rest) w =
       if Demo.caught (exn_class e)
       then (set_stdout (fun l => (l ++ [Demo.report e])%list) x.1, inr tt)
       else (x.1, inl e)).
Proof.
  cbv zeta. unfold Demo.run_event_list. split; [| split].
  - intros e event_list Hs. unfold bind at 1.
    destruct (start self w) as [w0 r]. simpl in *. now subst r.
  - intros event_list Hs Hd. unfold bind at 1.
    destruct (start self w) as [w0 r]. simpl in *. subst r.
    unfold bind, attempt.
    destruct (for_each event_list (dispatch_event self) w0) as [w1 r]. simpl in *.
    now subst r.
  - intros done event rest e Hs Hd Hx. unfold bind at 1.
    destruct (start self w) as [w0 r]. simpl in *. subst r.
    unfold bind, attempt.
    rewrite (for_each_raises done rest event (dispatch_event self) w0 e Hd Hx).
    destruct e as [c msg]. now destruct c.
Qed.

Lemma run_event_list_outcomes_witness :
  (Demo.run_event_list 0 [VStr "GOTO_B"; VStr "GOTO_A"; VStr "END"] demo_built).2 =
    inr tt.
Proof.
  pose proof (proj2 (proj2 (run_event_list_outcomes 0 demo_built))
                [VStr "GOTO_B"] (VStr "GOTO_A") [VStr "END"]
                (Exc InvalidStateTransition
                   "Cannot transition from state STATE_B to state STATE_A")) as H.
  cbv zeta in H. simpl app in H. rewrite H.
  - reflexivity.
  - vm_compute. reflexivity.
  - vm_compute. reflexivity.
  - vm_compute. reflexivity.
Defined.





(** *** The machine of [pystate.py] *)





















(** ** What only [add_state] changes *)


















(** ** What [start] never leaves *)

Lemma gen_state_after_started (res : Exn + option Frame) :
  gen_state_after res <> GenCreated.
Proof. now destruct res as [e | [fr |]]. Qed.

Lemma no_fresh_objs (w w' : World) :
  objs w' = objs w -> no_fresh_generator w -> no_fresh_generator w'.
Proof. intros H Hw r st g. rewrite H. apply Hw. Qed.

(** The store with the generator of one State put at a [yield] or at its
    end has no fresh generator when the other States have none. *)
Lemma no_fresh_parked (w w' : World) (state : ref) (st : State) (b : GenBody)
    (res : Exn + option Frame) :
  (forall r st0 g, r <> state -> objs w !! r = Some st0 -> generator st0 = Some g ->
                   gen_state g <> GenCreated) ->
  objs w' = <[state := with_generator
                (Some {| gen_body := b; gen_state := gen_state_after res |}) st]> (objs w) ->
  no_fresh_generator w'.
Proof.
  intros Hw Ho r st0 g Hs Hg. rewrite Ho in Hs.
  destruct (decide (r = state)) as [-> | Hne].
  - destruct (decide (state < length (objs w))) as [Hlt | Hge].
    + rewrite list_lookup_insert_eq in Hs by done. injection Hs as <-.
      simpl in Hg. injection Hg as <-. apply gen_state_after_started.
    + rewrite list_insert_ge in Hs by lia. apply lookup_lt_Some in Hs. lia.
  - rewrite list_lookup_insert_ne in Hs by done. now apply (Hw r st0 g).
Qed.

Lemma run_then_park (state : ref) (st : State) (b : GenBody)
    (p : Prog (option Frame)) (w : World) :
  objs w !! state = Some st ->
  exists res w1,
    objs w1 = objs w /\
    (let* res := attempt (run p) in park state b res) w =
      (set_objs (<[state := with_generator
                     (Some {| gen_body := b; gen_state := gen_state_after res |}) st]>) w1,
       send_outcome res).
Proof.
  intros Hs. unfold bind, attempt. pose proof (run_frame p w) as [Ho _].
  destruct (run p w) as [w1 res]. simpl in Ho. exists res, w1. split; [done |].
  apply park_ok. now rewrite Ho.
Qed.

(** What [send] does to the States: nothing, or it leaves the generator it
    ran at a [yield] or at its end. *)
Lemma gen_send_objs (state : ref) (v : PyVal) (w : World) :
  objs (gen_send state v w).1 = objs w \/
  exists st b res,
    objs w !! state = Some st /\
    objs (gen_send state v w).1 =
      <[state := with_generator
          (Some {| gen_body := b; gen_state := gen_state_after res |}) st]> (objs w).
Proof.
  unfold gen_send.
  destruct (objs w !! state) as [st |] eqn:Hs;
    [| left; unfold bind; munfold; now rewrite Hs].
  rewrite (bind_ok _ _ _ _ _ (get_state_ok _ _ _ Hs)).
  destruct (generator st) as [g |]; [| now left].
  destruct (gen_state g) as [| fr |]; [| | now left].
  - destruct (py_eqb v VNone); [| now left].
    destruct (run_then_park state st (gen_body g) (gb_setup (gen_body g)) w Hs)
      as (res & w1 & Ho & ->).
    right. exists st, (gen_body g), res. split; [done |]. simpl. now rewrite Ho.
  - rewrite (bind_ok _ _ _ _ _
               (eq_refl : modify (set_delivered (fun l => (l ++ [(state, v)])%list)) w =
                          (noted state v w, inr tt))).
    destruct (run_then_park state st (gen_body g) (gb_resume (gen_body g) fr v)
                (noted state v w) Hs) as (res & w1 & Ho & ->).
    right. exists st, (gen_body g), res. split; [done |]. simpl. now rewrite Ho.
Qed.

Lemma no_fresh_gen_send (state : ref) (v : PyVal) (w : World) :
  no_fresh_generator w -> no_fresh_generator (gen_send state v w).1.
Proof.
  intros Hw. destruct (gen_send_objs state v w) as [Ho | (st & b & res & Hs & Ho)].
  - now apply (no_fresh_objs w).
  - apply (no_fresh_parked w _ state st b res); [| done].
    intros r st0 g _. apply Hw.
Qed.

Lemma no_fresh_dispatch_event (self : ref) (event : PyVal) (w : World) :
  no_fresh_generator w -> no_fresh_generator (dispatch_event self event w).1.
Proof.
  intros Hw. unfold dispatch_event.
  destruct (fsms w !! self) as [fsm |] eqn:Hf;
    [| unfold bind; munfold; now rewrite Hf].
  rewrite (bind_ok _ _ _ _ _ (get_fsm_ok _ _ _ Hf)).
  unfold bind.
  assert (Hn : (attr_name (current_state fsm) w).1 = w).
  { unfold attr_name. destruct (current_state fsm) as [c |]; [| done].
    unfold bind. munfold. now destruct (objs w !! c). }
  destruct (attr_name (current_state fsm) w) as [w' [e | n]]; simpl in Hn; subst w';
    [done |].
  destruct (states fsm !! n); [now apply no_fresh_gen_send | done].
Qed.

(** One turn of the loop of [start]: the generator it makes is run to its
    first [yield] or to its end before the turn is over. *)
Lemma prime_objs (self state : ref) (w : World) :
  objs (prime self state w).1 = objs w \/
  exists st b res,
    objs w !! state = Some st /\
    objs (prime self state w).1 =
      <[state := with_generator
          (Some {| gen_body := b; gen_state := gen_state_after res |}) st]> (objs w).
Proof.
  unfold prime.
  destruct (objs w !! state) as [st |] eqn:Hs;
    [| unfold bind; munfold; rewrite Hs; now left].
  rewrite (bind_ok _ _ _ _ _ (get_state_ok _ _ _ Hs)).
  destruct (call_handler (handler_func st) self) as [e | b]; [now left |].
  rewrite (bind_ok _ _ _ _ _ (set_generator_ok _ _ _ _ Hs)).
  set (w1 := set_objs _ w).
  assert (Hlen : state < length (objs w)) by now apply lookup_lt_Some in Hs.
  assert (Hs1 : objs w1 !! state =
                Some (with_generator (Some {| gen_body := b; gen_state := GenCreated |}) st)).
  { subst w1. simpl. now apply list_lookup_insert_eq. }
  unfold gen_send.
  rewrite (bind_ok _ _ _ _ _ (get_state_ok _ _ _ Hs1)). simpl.
  destruct (run_then_park state _ b (gb_setup b) w1 Hs1) as (res & w2 & Ho & ->).
  right. exists st, b, res. split; [done |]. simpl. rewrite Ho. subst w1. simpl.
  now rewrite list_insert_insert_eq.
Qed.

Lemma no_fresh_prime (self state : ref) (w : World) :
  no_fresh_generator w -> no_fresh_generator (prime self state w).1.
Proof.
  intros Hw. destruct (prime_objs self state w) as [Ho | (st & b & res & Hs & Ho)].
  - now apply (no_fresh_objs w).
  - apply (no_fresh_parked w _ state st b res); [| done].
    intros r st0 g _. apply Hw.
Qed.

Lemma no_fresh_for_each {A : Type} (l : list A) (f : A -> M unit) (w : World) :
  (forall a w0, no_fresh_generator w0 -> no_fresh_generator (f a w0).1) ->
  no_fresh_generator w -> no_fresh_generator (for_each l f w).1.
Proof.
  intros Hf. revert w. induction l as [| a l IH]; intros w Hw; simpl; [done |].
  unfold bind. specialize (Hf a w Hw).
  destruct (f a w) as [w' [e | []]]; simpl in *; [done | now apply IH].
Qed.

Lemma no_fresh_start (self : ref) (w : World) :
  no_fresh_generator w -> no_fresh_generator (start self w).1.
Proof.
  intros Hw. rewrite start_unfold.
  destruct (fsms w !! self) as [fsm |] eqn:Hf;
    [| unfold bind; munfold; now rewrite Hf].
  rewrite (bind_ok _ _ _ _ _ (get_fsm_ok _ _ _ Hf)).
  destruct (initial_state fsm) as [i |]; [| done].
  assert (Hset : set_current_state self (Some i) w = (moved self i fsm w, inr tt)).
  { unfold set_current_state. now rewrite (bind_ok _ _ _ _ _ (get_fsm_ok _ _ _ Hf)). }
  rewrite (bind_ok _ _ _ _ _ Hset).
  apply no_fresh_for_each; [intros state w0; apply no_fresh_prime |].
  now apply (no_fresh_objs w).
Qed.

Lemma no_fresh_add_state (self state : ref) (fs : FromStates) (h : Callable)
    (initial : bool) (w : World) :
  no_fresh_generator w ->
  no_fresh_generator (add_state self state fs h initial w).1.
Proof.
  intros Hw.
  destruct (add_state_cases self state fs h initial w)
    as [-> | (fsm & st & Hf & Hs & Hn & ->)]; [done |].
  intros r st0 g Hr Hg. rewrite added_objs in Hr.
  destruct (decide (state = r)) as [<- | Hne]; [| now apply (Hw r st0 g)].
  rewrite Hs in Hr. simpl in Hr. injection Hr as <-. now apply (Hw state st g).
Qed.

Lemma no_fresh_do_op (o : Op) (w : World) :
  no_fresh_generator w -> no_fresh_generator (do_op o w).1.
Proof.
  intros Hw. destruct o as [n | | attrs | m s fs h i | m | m ev | m v]; simpl.
  - intros r st g Hr Hg. unfold bind, new_State in Hr. simpl in Hr.
    apply lookup_app_Some in Hr as [Hr | [_ Hr]]; [now apply (Hw r st g) |].
    apply list_lookup_singleton_Some in Hr as [_ <-]. discriminate.
  - now apply (no_fresh_objs w).
  - now apply (no_fresh_objs w).
  - now apply no_fresh_add_state.
  - now apply no_fresh_start.
  - now apply no_fresh_dispatch_event.
  - apply (no_fresh_objs w); [| done].
    now destruct (transition_to_frame m v w) as [Ho _].
Qed.

(** X18. [start] never leaves a generator it made unstarted: it calls
    [next] on each generator straight after making it, so that, whether
    [start] returns or raises, every State it handled holds a generator
    that is at a [yield] or has ended. From a store in which no State holds
    a generator whose code has not run (a store with no generator at all,
    for one), no calls of a driver lead to a store in which one does: no
    event is ever sent to a generator that was not started. *)
Theorem generators_always_started (ops : list Op) (w : World) :
  no_fresh_generator w -> no_fresh_generator (drive ops w).1.
Proof.
  revert w. induction ops as [| o ops IH]; intros w Hw; simpl; [done |].
  pose proof (no_fresh_do_op o w Hw) as Hw1.
  destruct (do_op o w) as [w1 r]. simpl in Hw1.
  specialize (IH w1 Hw1). now destruct (drive ops w1) as [w2 rs].
Qed.

Lemma no_fresh_empty_world : no_fresh_generator empty_world.
Proof. intros r st g Hr. simpl in Hr. now rewrite lookup_nil in Hr. Qed.

Lemma generators_always_started_witness :
  no_fresh_generator
    (drive (turnstile_ops (CGen (state_handler (Turnstile.state_locked_handler_fn 0))))
       empty_world).1.
Proof. exact (generators_always_started _ empty_world no_fresh_empty_world). Defined.
